(** * ClickGasto landing page: slide tracking and navigation (src/main.js)

    A shallow embedding of the classes of [main.js]: [SlideManager],
    [HeaderManager], [SlideNavigation], [InteractiveEnhancements] and
    [KeyboardNavigation], together with the part of the browser they talk
    to (window geometry, the list of animation-frame callbacks, the DOM
    writes they perform).

    Conventions of the model.
    - Layout values the DOM exposes as integers ([offsetTop], [offsetHeight],
      [innerHeight], [scrollHeight]) are [Z]; [pageYOffset] and the other
      doubles are rationals [Q], every finite double being one.
    - A JavaScript number is a [number]: a rational or one of [Infinity],
      [-Infinity], [NaN].  There is one zero: the only zero divisor of the
      program is [scrollHeight - innerHeight], a difference of integers,
      which is never [-0], and [-0] prints as [0].
    - Module [Number] has the operations with exact results.  They are
      used where the operands are integers (sums and differences of layout
      values, exact in binary64) and for the progress percentage, whose
      theorems state bounds, order and end values only.
    - Module [Binary64] has the operations as the engine performs them:
      the exact result rounded to the nearest double, ties to even, with
      overflow to infinity, by the IEEE 754 specification of the Standard
      Library ([SpecFloat], precision 53, [emax] 1024).  The scroll
      position and the ripple offsets are computed with them.
    - DOM writes and scroll requests are logged as [effect]s, in program
      order, by a small writer monad with a thrown [TypeError] as failure. *)

From Stdlib Require Import ZArith QArith Qminmax List String Bool Lia Lqa SpecFloat.
Import ListNotations.

(** ** ECMAScript numbers *)

Module Number.

Inductive number : Type :=
| Fin (q : Q)
| PosInf
| NegInf
| NaN.

Definition ofZ (z : Z) : number := Fin (inject_Z z).

Definition Qlt_bool (x y : Q) : bool := negb (Qle_bool y x).

(** [x + y] *)
Definition add (x y : number) : number :=
  match x, y with
  | NaN, _ | _, NaN => NaN
  | PosInf, NegInf | NegInf, PosInf => NaN
  | PosInf, _ | _, PosInf => PosInf
  | NegInf, _ | _, NegInf => NegInf
  | Fin a, Fin b => Fin (a + b)
  end.

(** [-x] *)
Definition neg (x : number) : number :=
  match x with
  | Fin a => Fin (- a)
  | PosInf => NegInf
  | NegInf => PosInf
  | NaN => NaN
  end.

(** [x - y] *)
Definition sub (x y : number) : number := add x (neg y).

(** The infinity whose sign is that of [a] times [positive]; [a] is not 0. *)
Definition signedInf (positive : bool) (a : Q) : number :=
  if Bool.eqb positive (Qlt_bool 0 a) then PosInf else NegInf.

(** [x * y] *)
Definition mul (x y : number) : number :=
  match x, y with
  | NaN, _ | _, NaN => NaN
  | Fin a, Fin b => Fin (a * b)
  | PosInf, PosInf | NegInf, NegInf => PosInf
  | PosInf, NegInf | NegInf, PosInf => NegInf
  | PosInf, Fin a | Fin a, PosInf =>
      if Qeq_bool a 0 then NaN else signedInf true a
  | NegInf, Fin a | Fin a, NegInf =>
      if Qeq_bool a 0 then NaN else signedInf false a
  end.

(** [x / y]; the zero divisor is [+0]. *)
Definition div (x y : number) : number :=
  match x, y with
  | NaN, _ | _, NaN => NaN
  | Fin a, Fin b =>
      if Qeq_bool b 0
      then (if Qeq_bool a 0 then NaN else signedInf true a)
      else Fin (a / b)
  | Fin _, (PosInf | NegInf) => Fin 0
  | (PosInf | NegInf), (PosInf | NegInf) => NaN
  | PosInf, Fin b => if Qlt_bool b 0 then NegInf else PosInf
  | NegInf, Fin b => if Qlt_bool b 0 then PosInf else NegInf
  end.

(** [x < y]; any comparison with [NaN] is false. *)
Definition lt (x y : number) : bool :=
  match x, y with
  | NaN, _ | _, NaN => false
  | Fin a, Fin b => Qlt_bool a b
  | NegInf, NegInf | PosInf, _ => false
  | NegInf, _ => true
  | Fin _, PosInf => true
  | Fin _, NegInf => false
  end.

(** [x >= y] *)
Definition ge (x y : number) : bool :=
  match x, y with
  | NaN, _ | _, NaN => false
  | _, _ => negb (lt x y)
  end.

(** [Math.min(x, y)] *)
Definition Math_min (x y : number) : number :=
  match x, y with
  | NaN, _ | _, NaN => NaN
  | _, _ => if lt y x then y else x
  end.

End Number.
Import Number.

(** ** Binary64 arithmetic *)

Module Binary64.

Definition prec : Z := 53.
Definition emax : Z := 1024.

(** The numerator of a rational as a float with an integer significand. *)
Definition numerator (q : Q) : spec_float :=
  match Qnum q with
  | Z0 => S754_zero false
  | Zpos n => S754_finite false n 0
  | Zneg n => S754_finite true n 0
  end.

(** The rational [m * 2 ^ e], in lowest terms. *)
Definition scaled (m : positive) (e : Z) : Q :=
  match e with
  | Z0 => Zpos m # 1
  | Zpos _ => Zpos m * 2 ^ e # 1
  | Zneg k => Qred (Zpos m # 2 ^ k)
  end.

Definition value (f : spec_float) : number :=
  match f with
  | S754_zero _ => Fin 0
  | S754_infinity false => PosInf
  | S754_infinity true => NegInf
  | S754_nan => NaN
  | S754_finite false m e => Fin (scaled m e)
  | S754_finite true m e => Fin (- scaled m e)
  end.

(** The double nearest to [q], ties to even: the correctly rounded
    quotient of its numerator by its denominator. *)
Definition round (q : Q) : number :=
  value (SFdiv prec emax (numerator q) (S754_finite false (Qden q) 0)).

Definition rounded (x : number) : number :=
  match x with
  | Fin q => round q
  | _ => x
  end.

Definition add (x y : number) : number := rounded (Number.add x y).
Definition sub (x y : number) : number := rounded (Number.sub x y).
Definition mul (x y : number) : number := rounded (Number.mul x y).
Definition div (x y : number) : number := rounded (Number.div x y).

End Binary64.

(** ** The browser side *)

(** [window] and [document.documentElement], as far as the code reads them. *)
Record Window : Type := {
  pageYOffset : Q;     (* window.pageYOffset *)
  innerHeight : Z;     (* window.innerHeight *)
  scrollHeight : Z     (* document.documentElement.scrollHeight *)
}.

(** A [.slide] section. *)
Record HTMLElement : Type := {
  offsetTop : Z;
  offsetHeight : Z
}.

(** Handle of one of the optional elements ([null] is [None]). *)
Definition Node : Type := nat.

Inductive ScrollBehavior : Type := Smooth | Instant | AutoBehavior.
Inductive ScrollLogicalPosition : Type := Start | Center | End_ | Nearest.

Record ScrollIntoViewOptions : Type := {
  behavior : ScrollBehavior;
  block : ScrollLogicalPosition
}.

(** What the code does to the page. *)
Inductive effect : Type :=
| SetStyleWidth (el : Node) (percent : number)
    (* el.style.width = `${percent}%` *)
| SetTextContent (el : Node) (value : Z)
    (* el.textContent = value *)
| SetDisabled (el : Node) (disabled : bool)
    (* el.disabled = disabled *)
| ScrollIntoView (slideIndex : Z) (options : ScrollIntoViewOptions)
    (* slides[slideIndex].scrollIntoView(options) *)
| PreventDefault.
    (* e.preventDefault() *)

(** ** Effects and exceptions *)

(** A computation logs effects and either completes with a value or throws
    a [TypeError] (reading a property of [null] or [undefined]); what was
    logged before the throw stays logged. *)
Definition Dom (A : Type) : Type := (list effect * option A)%type.

Definition ret {A} (a : A) : Dom A := ([], Some a).
Definition emit (e : effect) : Dom unit := ([e], Some tt).
Definition throwTypeError {A} : Dom A := ([], None).

Definition bind {A B} (m : Dom A) (k : A -> Dom B) : Dom B :=
  match m with
  | (es, Some a) => let (es', r) := k a in (es ++ es', r)
  | (es, None) => (es, None)
  end.

Declare Scope dom_scope.
Delimit Scope dom_scope with dom.
Notation "x <- m ;; k" := (bind m (fun x => k))
  (at level 61, m at next level, right associativity) : dom_scope.
Notation "m ;; k" := (bind m (fun _ => k))
  (at level 61, right associativity) : dom_scope.
Local Open Scope dom_scope.

Definition effects {A} (m : Dom A) : list effect := fst m.
Definition completes {A} (m : Dom A) : bool :=
  match snd m with Some _ => true | None => false end.

(** [NodeList.prototype.forEach], with the state the callback closes over
    threaded through. *)
Fixpoint forEach_from {S : Type} (callback : HTMLElement -> nat -> S -> S)
    (index : nat) (nodes : list HTMLElement) (s : S) : S :=
  match nodes with
  | [] => s
  | slide :: rest => forEach_from callback (Datatypes.S index) rest (callback slide index s)
  end.

Definition forEach {S : Type} (callback : HTMLElement -> nat -> S -> S)
    (nodes : list HTMLElement) (s : S) : S :=
  forEach_from callback 0 nodes s.

(** [nodes[i]]: [undefined] outside the list. *)
Definition item (nodes : list HTMLElement) (i : Z) : option HTMLElement :=
  if (i <? 0)%Z then None else nth_error nodes (Z.to_nat i).

(** ** SlideManager *)

Record SlideManager : Type := {
  slides : list HTMLElement;           (* querySelectorAll('.slide') *)
  scrollProgress : option Node;        (* querySelector('.scroll-progress') *)
  currentSlideElement : option Node;   (* querySelector('.current-slide') *)
  currentSlide : Z
}.

Definition set_currentSlide (sm : SlideManager) (v : Z) : SlideManager :=
  {| slides := slides sm;
     scrollProgress := scrollProgress sm;
     currentSlideElement := currentSlideElement sm;
     currentSlide := v |}.

(** [window.pageYOffset + window.innerHeight * 0.5] *)
Definition scrollPosition (w : Window) : number :=
  Binary64.add (Fin (pageYOffset w)) (Binary64.mul (ofZ (innerHeight w)) (Fin (1 # 2))).

(** [scrollPosition >= slideTop && scrollPosition < slideBottom] *)
Definition inSlide (scrollPosition : number) (slide : HTMLElement) : bool :=
  let slideTop := ofZ (offsetTop slide) in
  let slideBottom := add slideTop (ofZ (offsetHeight slide)) in
  ge scrollPosition slideTop && lt scrollPosition slideBottom.

(** The local [documentHeight] of [updateScrollProgress]. *)
Definition documentHeight (w : Window) : number :=
  sub (ofZ (scrollHeight w)) (ofZ (innerHeight w)).

(** The local [progress] of [updateScrollProgress]. *)
Definition progress (w : Window) : number :=
  let scrollTop := Fin (pageYOffset w) in
  mul (div scrollTop (documentHeight w)) (Fin 100).

Definition updateScrollProgress (w : Window) (sm : SlideManager) : Dom unit :=
  match scrollProgress sm with
  | Some el => emit (SetStyleWidth el (Math_min (progress w) (Fin 100)))
  | None => ret tt
  end.

Definition updateSlideCounter (sm : SlideManager) : Dom unit :=
  match currentSlideElement sm with
  | Some el => emit (SetTextContent el (currentSlide sm))
  | None => ret tt
  end.

(** The callback of the [forEach] in [updateCurrentSlide]; its state is the
    manager and the effects logged so far. *)
Definition updateCurrentSlide_callback (scrollPosition : number)
    (slide : HTMLElement) (index : nat) (st : SlideManager * list effect)
    : SlideManager * list effect :=
  let (sm, log) := st in
  if inSlide scrollPosition slide then
    let newSlide := (Z.of_nat index + 1)%Z in
    if negb (newSlide =? currentSlide sm)%Z then
      let sm' := set_currentSlide sm newSlide in
      (sm', log ++ effects (updateSlideCounter sm'))
    else st
  else st.

Definition updateCurrentSlide (w : Window) (sm : SlideManager) : Dom SlideManager :=
  let (sm', log) :=
    forEach (updateCurrentSlide_callback (scrollPosition w)) (slides sm) (sm, []) in
  (log, Some sm').

(** The constructor up to the end of [init]: [currentSlide] starts at 1 and
    the two updates run once on the window as loaded. *)
Definition SlideManager_new (w : Window) (nodes : list HTMLElement)
    (bar counter : option Node) : Dom SlideManager :=
  let this := {| slides := nodes; scrollProgress := bar;
                 currentSlideElement := counter; currentSlide := 1 |} in
  updateScrollProgress w this ;;
  updateCurrentSlide w this.

Definition smoothStart : ScrollIntoViewOptions :=
  {| behavior := Smooth; block := Start |}.

Definition goToSlide (sm : SlideManager) (slideIndex : Z) : Dom unit :=
  if ((slideIndex >=? 0)%Z && (slideIndex <? Z.of_nat (List.length (slides sm)))%Z)%bool then
    match item (slides sm) slideIndex with
    | Some _ => emit (ScrollIntoView slideIndex smoothStart)
    | None => throwTypeError
    end
  else ret tt.

(** The callback of the [forEach] in [getCurrentSlideIndex]; its state is
    the local [currentIndex]. *)
Definition getCurrentSlideIndex_callback (scrollPosition : number)
    (slide : HTMLElement) (index : nat) (currentIndex : Z) : Z :=
  if inSlide scrollPosition slide then Z.of_nat index else currentIndex.

Definition getCurrentSlideIndex (w : Window) (sm : SlideManager) : Z :=
  let scrollPosition := scrollPosition w in
  let currentIndex := 0%Z in
  forEach (getCurrentSlideIndex_callback scrollPosition) (slides sm) currentIndex.

(** ** SlideNavigation *)

(** [this.slideManager] is a reference to the one [SlideManager] of the page:
    the methods below take that object as an argument rather than a copy. *)
Record SlideNavigation : Type := {
  upButton : option Node;      (* getElementById('slideUp') *)
  downButton : option Node     (* getElementById('slideDown') *)
}.

Definition navigateUp (w : Window) (sm : SlideManager) : Dom unit :=
  let currentIndex := getCurrentSlideIndex w sm in
  let targetIndex := Z.max (currentIndex - 1) 0 in
  goToSlide sm targetIndex.

Definition navigateDown (w : Window) (sm : SlideManager) : Dom unit :=
  let currentIndex := getCurrentSlideIndex w sm in
  let totalSlides := Z.of_nat (List.length (slides sm)) in
  let targetIndex := Z.min (currentIndex + 1) (totalSlides - 1) in
  goToSlide sm targetIndex.

(** [el.disabled = v], a [TypeError] when [el] is [null]. *)
Definition setDisabled (el : option Node) (v : bool) : Dom unit :=
  match el with
  | Some n => emit (SetDisabled n v)
  | None => throwTypeError
  end.

Definition updateButtonStates (w : Window) (sm : SlideManager)
    (nav : SlideNavigation) : Dom unit :=
  let currentIndex := getCurrentSlideIndex w sm in
  let totalSlides := Z.of_nat (List.length (slides sm)) in
  setDisabled (upButton nav) (currentIndex =? 0)%Z ;;
  setDisabled (downButton nav) (currentIndex =? totalSlides - 1)%Z.

(** [init]: without both buttons nothing is registered and nothing runs. *)
Definition SlideNavigation_init (w : Window) (sm : SlideManager)
    (nav : SlideNavigation) : Dom unit :=
  match upButton nav, downButton nav with
  | Some _, Some _ => updateButtonStates w sm nav
  | _, _ => ret tt
  end.

(** ** KeyboardNavigation *)

Definition handleKeydown (w : Window) (sm : SlideManager) (key : string) : Dom unit :=
  let currentIndex := getCurrentSlideIndex w sm in
  let totalSlides := Z.of_nat (List.length (slides sm)) in
  if (key =? "ArrowDown")%string || (key =? "PageDown")%string then
    emit PreventDefault ;;
    goToSlide sm (Z.min (currentIndex + 1) (totalSlides - 1))
  else if (key =? "ArrowUp")%string || (key =? "PageUp")%string then
    emit PreventDefault ;;
    goToSlide sm (Z.max (currentIndex - 1) 0)
  else if (key =? "Home")%string then
    emit PreventDefault ;;
    goToSlide sm 0
  else if (key =? "End")%string then
    emit PreventDefault ;;
    goToSlide sm (totalSlides - 1)
  else ret tt.

(** ** The page: scroll listeners and animation frames

    [requestAnimationFrame(cb)] appends [cb] to the document's list of
    animation-frame callbacks; the next frame takes the whole list, empties
    it and runs the callbacks in order, each reading the window as it is
    then.  A callback that throws is reported and the next one still runs. *)

Inductive FrameRequestCallback : Type :=
| SlideManagerFrame       (* () => { updateScrollProgress(); updateCurrentSlide(); } *)
| SlideNavigationFrame.   (* () => this.updateButtonStates() *)

Record Page : Type := {
  window : Window;
  manager : SlideManager;
  navigation : SlideNavigation;
  animationFrameCallbacks : list FrameRequestCallback
}.

(** The ['scroll'] listeners in registration order: [SlideManager.init]
    always adds its own, [SlideNavigation.init] returns before adding one
    when a button is missing.  ([HeaderManager]'s listener writes the
    header's style only and is not modelled.) *)
Definition scrollListeners (p : Page) : list FrameRequestCallback :=
  SlideManagerFrame ::
  match upButton (navigation p), downButton (navigation p) with
  | Some _, Some _ => [SlideNavigationFrame]
  | _, _ => []
  end.

(** The browser scrolls to [w] and fires ['scroll']: every listener calls
    [requestAnimationFrame] with its callback. *)
Definition dispatchScroll (w : Window) (p : Page) : Page :=
  {| window := w;
     manager := manager p;
     navigation := navigation p;
     animationFrameCallbacks := animationFrameCallbacks p ++ scrollListeners p |}.

Definition runCallback (cb : FrameRequestCallback) (st : Page * list effect)
    : Page * list effect :=
  let (p, log) := st in
  match cb with
  | SlideManagerFrame =>
      match updateScrollProgress (window p) (manager p) ;;
            updateCurrentSlide (window p) (manager p) with
      | (es, Some sm') =>
          ({| window := window p; manager := sm'; navigation := navigation p;
              animationFrameCallbacks := animationFrameCallbacks p |}, log ++ es)
      | (es, None) => (p, log ++ es)
      end
  | SlideNavigationFrame =>
      (p, log ++ effects (updateButtonStates (window p) (manager p) (navigation p)))
  end.

(** One rendered frame: run the pending callbacks. *)
Definition animationFrame (p : Page) : Page * list effect :=
  let callbacks := animationFrameCallbacks p in
  let p0 := {| window := window p; manager := manager p; navigation := navigation p;
               animationFrameCallbacks := [] |} in
  fold_left (fun st cb => runCallback cb st) callbacks (p0, []).

(** The ['DOMContentLoaded'] listener: the page as the components leave it,
    with no animation-frame callback pending. *)
Definition DOMContentLoaded (w : Window) (nodes : list HTMLElement)
    (bar counter up down : option Node) : Dom Page :=
  slideManager <- SlideManager_new w nodes bar counter ;;
  let nav := {| upButton := up; downButton := down |} in
  SlideNavigation_init w slideManager nav ;;
  ret {| window := w; manager := slideManager; navigation := nav;
         animationFrameCallbacks := [] |}.

(** A burst of scroll notifications, one per window state reached. *)
Definition scrollBurst (ws : list Window) (p : Page) : Page :=
  fold_left (fun p w => dispatchScroll w p) ws p.

Definition isWidthWrite (e : effect) : bool :=
  match e with SetStyleWidth _ _ => true | _ => false end.

Definition isDisabledWrite (e : effect) : bool :=
  match e with SetDisabled _ _ => true | _ => false end.

Definition isScrollRequest (e : effect) : bool :=
  match e with ScrollIntoView _ _ => true | _ => false end.

Definition count (f : effect -> bool) (log : list effect) : nat :=
  List.length (filter f log).

(** ** Layouts *)

(** Slides stacked vertically in document order: no negative height, and
    each slide starts at or below the bottom of the one before. *)
Fixpoint stacked (nodes : list HTMLElement) : Prop :=
  match nodes with
  | [] => True
  | slide :: rest =>
      (0 <= offsetHeight slide)%Z /\
      match rest with
      | [] => True
      | next :: _ => (offsetTop slide + offsetHeight slide <= offsetTop next)%Z
      end /\
      stacked rest
  end.

(** The half-open range [[top, top + height)] of a slide. *)
Definition inRange (y : Q) (slide : HTMLElement) : Prop :=
  inject_Z (offsetTop slide) <= y /\
  y < inject_Z (offsetTop slide) + inject_Z (offsetHeight slide).

(** The focus point, the number the code computes for
    [pageYOffset + innerHeight * 0.5], is finite and lies in the range of
    the slide. *)
Definition focusInRange (w : Window) (slide : HTMLElement) : Prop :=
  exists y : Q, scrollPosition w = Fin y /\ inRange y slide.

Definition sampleManager (nodes : list HTMLElement) : SlideManager :=
  {| slides := nodes; scrollProgress := Some 0%nat;
     currentSlideElement := Some 1%nat; currentSlide := 1 |}.

Definition slideAt (top height : Z) : HTMLElement :=
  {| offsetTop := top; offsetHeight := height |}.

(** ** Vocabulary of the statements *)

Definition threeSlides : list HTMLElement :=
  [slideAt 0 100; slideAt 100 100; slideAt 200 100].

Definition windowAt (offset : Q) (viewport total : Z) : Window :=
  {| pageYOffset := offset; innerHeight := viewport; scrollHeight := total |}.

Definition totalSlides (sm : SlideManager) : Z := Z.of_nat (List.length (slides sm)).

(** Every scroll request of a log names an index between [lo] and [hi]. *)
Definition requestsWithin (lo hi : Z) (log : list effect) : Prop :=
  Forall (fun e => match e with
                   | ScrollIntoView i _ => (lo <= i <= hi)%Z
                   | _ => True
                   end) log.

(** An operation invoked once per window state of [ws], in turn. *)
Definition repeated (op : Window -> SlideManager -> Dom unit)
    (sm : SlideManager) (ws : list Window) : list effect :=
  flat_map (fun w => effects (op w sm)) ws.

(** [scrollHeight - innerHeight] as the rational the model computes. *)
Definition documentHeightQ (w : Window) : Q :=
  inject_Z (scrollHeight w) + - inject_Z (innerHeight w).

Definition framesOf (cb : FrameRequestCallback) (callbacks : list FrameRequestCallback)
    : nat :=
  List.length (filter (fun c => match c, cb with
                                | SlideManagerFrame, SlideManagerFrame => true
                                | SlideNavigationFrame, SlideNavigationFrame => true
                                | _, _ => false
                                end) callbacks).

Definition widthWritesOf (cb : FrameRequestCallback) : nat :=
  match cb with SlideManagerFrame => 1 | SlideNavigationFrame => 0 end.

Definition disabledWritesOf (cb : FrameRequestCallback) : nat :=
  match cb with SlideManagerFrame => 0 | SlideNavigationFrame => 2 end.

Definition samplePage (nodes : list HTMLElement) : Page :=
  {| window := windowAt 0 100 300;
     manager := sampleManager nodes;
     navigation := {| upButton := Some 2%nat; downButton := Some 3%nat |};
     animationFrameCallbacks := [] |}.

(** ** HeaderManager *)

(** [x > y], evaluated as [y < x]. *)
Definition gt (x y : number) : bool := lt y x.

(** [Math.max(x, y)] *)
Definition Math_max (x y : number) : number :=
  match x, y with
  | NaN, _ | _, NaN => NaN
  | _, _ => if lt x y then y else x
  end.

Record HeaderManager : Type := {
  header : option Node;     (* querySelector('.header') *)
  lastScroll : Q
}.

(** Writes to [this.header.style]. *)
Inductive headerStyle : Type :=
| SetBackground (el : Node) (value : string)
| SetBoxShadow (el : Node) (value : string)
| SetTransform (el : Node) (value : string).

(** The constructor: [lastScroll] starts at 0. *)
Definition HeaderManager_new (el : option Node) : HeaderManager :=
  {| header := el; lastScroll := 0 |}.

(** [handleScroll]; [None] is the [TypeError] of [this.header.style] on a
    missing header. *)
Definition handleScroll (w : Window) (hm : HeaderManager)
    : list headerStyle * option HeaderManager :=
  let currentScroll := Fin (pageYOffset w) in
  match header hm with
  | None => ([], None)
  | Some el =>
      let backdrop :=
        if gt currentScroll (Fin 100)
        then [SetBackground el "rgba(255, 255, 255, 0.98)";
              SetBoxShadow el "0 2px 20px rgba(0, 0, 0, 0.1)"]
        else [SetBackground el "rgba(255, 255, 255, 0.95)";
              SetBoxShadow el "none"] in
      let reveal :=
        if gt currentScroll (Fin (lastScroll hm)) && gt currentScroll (Fin 200)
        then [SetTransform el "translateY(-100%)"]
        else [SetTransform el "translateY(0)"] in
      (backdrop ++ reveal,
       Some {| header := header hm; lastScroll := pageYOffset w |})
  end.

(** ** The intersection observer of [setupIntersectionObserver] *)

(** An entry, with the result of
    [entry.target.querySelectorAll('.slide-content > *')]. *)
Record IntersectionObserverEntry : Type := {
  isIntersecting : bool;
  target : Node;
  contentChildren : list Node
}.

Inductive revealEffect : Type :=
| ClassListAdd (el : Node) (className : string)
| SetTimeout (delay : Z) (child : Node).
    (* setTimeout(() => { child.style.opacity = '1';
                          child.style.transform = 'translateY(0)' }, delay) *)

Fixpoint forEachNode_from {S : Type} (callback : Node -> nat -> S -> S)
    (index : nat) (nodes : list Node) (s : S) : S :=
  match nodes with
  | [] => s
  | child :: rest =>
      forEachNode_from callback (Datatypes.S index) rest (callback child index s)
  end.

(** The body of [entries.forEach(entry => ...)] for one entry. *)
Definition revealEntry (entry : IntersectionObserverEntry)
    (log : list revealEffect) : list revealEffect :=
  if isIntersecting entry then
    forEachNode_from
      (fun child index log => log ++ [SetTimeout (Z.of_nat index * 100) child])
      0 (contentChildren entry)
      (log ++ [ClassListAdd (target entry) "visible"])
  else log.

(** The observer's callback. *)
Definition observerCallback (entries : list IntersectionObserverEntry)
    : list revealEffect :=
  fold_left (fun log entry => revealEntry entry log) entries [].

Definition isTimeout (e : revealEffect) : bool :=
  match e with SetTimeout _ _ => true | _ => false end.

(** ** The ripple of [addClickEffects] *)

Module Ripple.

Record DOMRect : Type := { left : Q; top : Q; width : Q; height : Q }.

(** The clicked control: [this.disabled] ([undefined] on a link is
    [false]) and [this.getBoundingClientRect()]. *)
Record Control : Type := {
  node : Node;
  disabled : bool;
  getBoundingClientRect : DOMRect
}.

Record MouseEvent : Type := { clientX : Q; clientY : Q }.

Inductive rippleEffect : Type :=
| CreateSpan
| SetHeightPx (v : number)       (* ripple.style.height = `${v}px` *)
| SetWidthPx (v : number)
| SetLeftPx (v : number)
| SetTopPx (v : number)
| AddRippleClass (className : string)
| AppendTo (parent : Node)
| RemoveAfter (delay : Z).       (* setTimeout(() => ripple.remove(), delay) *)

Definition onClick (this : Control) (e : MouseEvent) : list rippleEffect :=
  if disabled this then []
  else
    let rect := getBoundingClientRect this in
    let size := Math_max (Fin (width rect)) (Fin (height rect)) in
    let x := Binary64.sub (Binary64.sub (Fin (clientX e)) (Fin (left rect)))
                          (Binary64.div size (Fin 2)) in
    let y := Binary64.sub (Binary64.sub (Fin (clientY e)) (Fin (top rect)))
                          (Binary64.div size (Fin 2)) in
    [CreateSpan; SetHeightPx size; SetWidthPx size; SetLeftPx x; SetTopPx y;
     AddRippleClass "ripple"; AppendTo (node this); RemoveAfter 600].

End Ripple.

(** ** A session: the page and the header under a stream of events *)

Record Session : Type := {
  page : Page;
  headerManager : HeaderManager
}.

Inductive output : Type :=
| SlideOutput (e : effect)
| HeaderOutput (h : headerStyle).

Inductive Event : Type :=
| ScrollEvent (w : Window)     (* the browser scrolled to [w] and fired 'scroll' *)
| AnimationFrameEvent
| ClickUp                      (* 'click' on #slideUp *)
| ClickDown                    (* 'click' on #slideDown *)
| KeydownEvent (key : string).

(** What a frame callback runs. *)
Definition callbackBody (cb : FrameRequestCallback) (p : Page) : Dom SlideManager :=
  match cb with
  | SlideManagerFrame =>
      updateScrollProgress (window p) (manager p) ;;
      updateCurrentSlide (window p) (manager p)
  | SlideNavigationFrame =>
      updateButtonStates (window p) (manager p) (navigation p) ;;
      ret (manager p)
  end.

(** The callbacks of a queue that end in a [TypeError] when the queue runs. *)
Fixpoint uncaughtIn (callbacks : list FrameRequestCallback) (p : Page) : nat :=
  match callbacks with
  | [] => 0
  | cb :: rest =>
      (if completes (callbackBody cb p) then 0 else 1)
      + uncaughtIn rest (fst (runCallback cb (p, [])))
  end.

Definition uncaughtOf {A} (m : Dom A) : nat := if completes m then 0%nat else 1%nat.

(** The result of delivering one event: the session after it, what the
    listeners did, and how many of them threw. *)
Record Delivery : Type := {
  after : Session;
  outputs : list output;
  uncaught : nat
}.

Definition withPage (s : Session) (p : Page) : Session :=
  {| page := p; headerManager := headerManager s |}.

(** The ['click'] listeners of the two buttons exist only when
    [SlideNavigation.init] found both. *)
Definition buttonsListen (nav : SlideNavigation) : bool :=
  match upButton nav, downButton nav with
  | Some _, Some _ => true
  | _, _ => false
  end.

Definition deliver (ev : Event) (s : Session) : Delivery :=
  let p := page s in
  match ev with
  | ScrollEvent w =>
      (* listeners in registration order: SlideManager, HeaderManager,
         SlideNavigation; only the header's does its work at once *)
      let p' := dispatchScroll w p in
      match header (headerManager s) with
      | None => {| after := withPage s p'; outputs := []; uncaught := 0 |}
      | Some _ =>
          match handleScroll w (headerManager s) with
          | (log, Some hm') =>
              {| after := {| page := p'; headerManager := hm' |};
                 outputs := map HeaderOutput log; uncaught := 0 |}
          | (log, None) =>
              {| after := withPage s p'; outputs := map HeaderOutput log;
                 uncaught := 1 |}
          end
      end
  | AnimationFrameEvent =>
      let (p', log) := animationFrame p in
      {| after := withPage s p'; outputs := map SlideOutput log;
         uncaught := uncaughtIn (animationFrameCallbacks p)
                       {| window := window p; manager := manager p;
                          navigation := navigation p;
                          animationFrameCallbacks := [] |} |}
  | ClickUp =>
      if buttonsListen (navigation p) then
        let m := navigateUp (window p) (manager p) in
        {| after := s; outputs := map SlideOutput (effects m);
           uncaught := uncaughtOf m |}
      else {| after := s; outputs := []; uncaught := 0 |}
  | ClickDown =>
      if buttonsListen (navigation p) then
        let m := navigateDown (window p) (manager p) in
        {| after := s; outputs := map SlideOutput (effects m);
           uncaught := uncaughtOf m |}
      else {| after := s; outputs := []; uncaught := 0 |}
  | KeydownEvent key =>
      let m := handleKeydown (window p) (manager p) key in
      {| after := s; outputs := map SlideOutput (effects m);
         uncaught := uncaughtOf m |}
  end.

(** A stream of events, delivered in order. *)
Fixpoint run (events : list Event) (s : Session) : Delivery :=
  match events with
  | [] => {| after := s; outputs := []; uncaught := 0 |}
  | ev :: rest =>
      let d := deliver ev s in
      let d' := run rest (after d) in
      {| after := after d';
         outputs := outputs d ++ outputs d';
         uncaught := uncaught d + uncaught d' |}
  end.

(** The ['DOMContentLoaded'] listener with the header: the session it
    leaves, [None] if a constructor threw.  The constructors of
    [InteractiveEnhancements] and [KeyboardNavigation] only register
    listeners, and the [console.log] on localhost touches nothing here. *)
Definition loadSession (w : Window) (nodes : list HTMLElement)
    (bar counter up down head : option Node) : Dom Session :=
  p <- DOMContentLoaded w nodes bar counter up down ;;
  ret {| page := p; headerManager := HeaderManager_new head |}.

Definition isHeaderOutput (o : output) : bool :=
  match o with HeaderOutput _ => true | SlideOutput _ => false end.

Definition slideOutputs (log : list output) : list effect :=
  flat_map (fun o => match o with SlideOutput e => [e] | HeaderOutput _ => [] end) log.

Definition headerOutputs (log : list output) : list headerStyle :=
  flat_map (fun o => match o with HeaderOutput h => [h] | SlideOutput _ => [] end) log.

(** The keys [handleKeydown] reacts to. *)
Definition navigationKeys : list string :=
  ["ArrowDown"; "PageDown"; "ArrowUp"; "PageUp"; "Home"; "End"]%string.

Definition headerHidden : string := "translateY(-100%)".
Definition headerShown : string := "translateY(0)".

(** The transform [handleScroll] writes on a scroll from [previous] to
    [current]. *)
Definition revealFor (previous current : Q) : string :=
  if Qlt_bool previous current && Qlt_bool 200 current
  then headerHidden else headerShown.

Definition scrollEvents (ws : list Window) : list Event := map ScrollEvent ws.

(** A queue holds a [SlideNavigationFrame] callback only if the scroll
    listener of [SlideNavigation.init] was registered. *)
Definition queueSound (p : Page) : Prop :=
  In SlideNavigationFrame (animationFrameCallbacks p) ->
  buttonsListen (navigation p) = true.

Definition noRequest (e : effect) : Prop := isScrollRequest e = false.

Definition sampleSession (nodes : list HTMLElement) : Session :=
  {| page := samplePage nodes; headerManager := HeaderManager_new (Some 4%nat) |}.

(** The timers of a stagger that starts at [index]. *)
Fixpoint staggered (index : nat) (children : list Node) : list revealEffect :=
  match children with
  | [] => []
  | child :: rest => SetTimeout (Z.of_nat index * 100) child :: staggered (S index) rest
  end.

Definition childrenRevealed (entry : IntersectionObserverEntry) : nat :=
  if isIntersecting entry then List.length (contentChildren entry) else 0%nat.

Definition isCounterWrite (e : effect) : bool :=
  match e with SetTextContent _ _ => true | _ => false end.

(** * Properties *)

(** ** Rounding *)

(** One tenth is not a double: it rounds to the nearest one. *)
Example round_one_tenth :
  Binary64.round (1 # 10) = Fin (3602879701896397 # 36028797018963968).
Proof. vm_compute. reflexivity. Qed.

(** A tie goes to the even neighbour: [2^53 + 1] rounds down to [2^53]. *)
Example round_tie_to_even :
  Binary64.round (9007199254740993 # 1) = Fin (9007199254740992 # 1).
Proof. vm_compute. reflexivity. Qed.

(** Halving and adding layout values of ordinary size is exact. *)
Example round_exact_on_halves :
  Binary64.add (Fin (301 # 2)) (Binary64.mul (ofZ 901) (Fin (1 # 2))) = Fin 601.
Proof. vm_compute. reflexivity. Qed.

(** Below half the least subnormal the result is zero; from
    [2^1024 - 2^970] on it is infinite. *)
Example round_underflow_overflow :
  Binary64.round ((1 # 2) ^ 1076) = Fin 0 /\
  Binary64.round (2 ^ 1024 - 2 ^ 970) = PosInf.
Proof. split; vm_compute; reflexivity. Qed.

(** ** The focus point and slide ranges *)

Lemma Qlt_bool_iff (x y : Q) : Qlt_bool x y = true <-> x < y.
Proof.
  unfold Qlt_bool. rewrite negb_true_iff.
  split; intro H.
  - apply Qnot_le_lt. intro Hle. apply Qle_bool_iff in Hle. congruence.
  - destruct (Qle_bool y x) eqn:E; trivial.
    apply Qle_bool_iff in E. exfalso. apply (Qlt_not_le _ _ H E).
Qed.

Lemma Qlt_bool_false_iff (x y : Q) : Qlt_bool x y = false <-> y <= x.
Proof.
  unfold Qlt_bool. rewrite negb_false_iff. apply Qle_bool_iff.
Qed.

Lemma inSlide_iff (y : Q) (slide : HTMLElement) :
  inSlide (Fin y) slide = true <-> inRange y slide.
Proof.
  unfold inSlide, inRange, ofZ; simpl.
  rewrite andb_true_iff, negb_true_iff, Qlt_bool_false_iff, Qlt_bool_iff.
  tauto.
Qed.

Lemma inSlide_false_iff (y : Q) (slide : HTMLElement) :
  inSlide (Fin y) slide = false <-> ~ inRange y slide.
Proof.
  rewrite <- inSlide_iff. destruct (inSlide (Fin y) slide); split; congruence.
Qed.

(** Only a finite position can be inside a slide. *)
Lemma inSlide_true_fin (pos : number) (slide : HTMLElement) :
  inSlide pos slide = true -> exists y : Q, pos = Fin y /\ inRange y slide.
Proof.
  destruct pos as [y| | |]; intro H.
  - exists y. split; [reflexivity|now apply inSlide_iff].
  - unfold inSlide in H. simpl in H. discriminate.
  - discriminate.
  - discriminate.
Qed.

Lemma focusInRange_iff (w : Window) (slide : HTMLElement) :
  inSlide (scrollPosition w) slide = true <-> focusInRange w slide.
Proof.
  split.
  - apply inSlide_true_fin.
  - intros (y & Hy & Hin). rewrite Hy. now apply inSlide_iff.
Qed.

Lemma focusInRange_false (w : Window) (slide : HTMLElement) :
  inSlide (scrollPosition w) slide = false <-> ~ focusInRange w slide.
Proof.
  rewrite <- focusInRange_iff.
  destruct (inSlide (scrollPosition w) slide); split; congruence.
Qed.


(** In a stacked layout every later slide starts at or below the bottom of
    an earlier one. *)
Lemma stacked_tail (slide : HTMLElement) (rest : list HTMLElement) :
  stacked (slide :: rest) ->
  Forall (fun later => (offsetTop slide + offsetHeight slide <= offsetTop later)%Z) rest.
Proof.
  revert slide. induction rest as [|next rest IH]; intros slide H.
  - constructor.
  - destruct H as (Hh & Hnext & Hrest).
    constructor; [exact Hnext|].
    specialize (IH next Hrest).
    destruct Hrest as (Hh' & _ & _).
    eapply Forall_impl; [|exact IH].
    simpl; intros later Hl. lia.
Qed.

Lemma stacked_app_inv (before after : list HTMLElement) :
  stacked (before ++ after) -> stacked after.
Proof.
  induction before as [|s before IH]; simpl; [tauto|].
  intros (_ & _ & H). auto.
Qed.

Lemma stacked_later_miss (y : Q) (slide : HTMLElement) (rest : list HTMLElement) :
  stacked (slide :: rest) ->
  y < inject_Z (offsetTop slide) + inject_Z (offsetHeight slide) ->
  Forall (fun later => inSlide (Fin y) later = false) rest.
Proof.
  intros Hst Hy. apply stacked_tail in Hst.
  eapply Forall_impl; [|exact Hst].
  simpl; intros later Hle. apply inSlide_false_iff. intros [Htop _].
  rewrite <- inject_Z_plus in Hy.
  assert (inject_Z (offsetTop slide + offsetHeight slide) <= inject_Z (offsetTop later))
    by (rewrite <- Zle_Qle; exact Hle).
  lra.
Qed.

Lemma stacked_later_miss_pos (pos : number) (slide : HTMLElement)
    (rest : list HTMLElement) :
  stacked (slide :: rest) ->
  inSlide pos slide = true ->
  Forall (fun later => inSlide pos later = false) rest.
Proof.
  intros Hst Hin. destruct (inSlide_true_fin pos slide Hin) as (y & -> & Hr).
  apply stacked_later_miss with (slide := slide); [exact Hst|apply Hr].
Qed.

(** ** The scan of [getCurrentSlideIndex] *)

Lemma getCurrentSlideIndex_scan (w : Window) (sm : SlideManager) :
  getCurrentSlideIndex w sm
  = forEach_from (getCurrentSlideIndex_callback (scrollPosition w)) 0 (slides sm) 0%Z.
Proof. reflexivity. Qed.

Lemma scan_no_match (pos : number) (nodes : list HTMLElement) :
  Forall (fun s => inSlide pos s = false) nodes ->
  forall index cur, forEach_from (getCurrentSlideIndex_callback pos) index nodes cur = cur.
Proof.
  induction 1 as [|s nodes Hs _ IH]; intros index cur; simpl; [reflexivity|].
  rewrite IH. unfold getCurrentSlideIndex_callback. now rewrite Hs.
Qed.

(** The scan returns the last slide that matches. *)
Lemma scan_last_match (pos : number) (before : list HTMLElement)
    (slide : HTMLElement) (after : list HTMLElement) :
  inSlide pos slide = true ->
  Forall (fun s => inSlide pos s = false) after ->
  forall index cur,
    forEach_from (getCurrentSlideIndex_callback pos) index (before ++ slide :: after) cur
    = Z.of_nat (index + List.length before).
Proof.
  intros Hin Hafter.
  induction before as [|b before IH]; intros index cur; simpl.
  - rewrite scan_no_match by assumption.
    unfold getCurrentSlideIndex_callback. rewrite Hin. f_equal. lia.
  - rewrite IH. f_equal. lia.
Qed.

Lemma nth_error_decompose (A : Type) (l : list A) (k : nat) (x : A) :
  nth_error l k = Some x ->
  exists before after, l = before ++ x :: after /\ List.length before = k.
Proof.
  intro H. apply nth_error_split in H. destruct H as (l1 & l2 & -> & <-).
  now exists l1, l2.
Qed.

(** ** The scan of [updateCurrentSlide] *)

Lemma update_no_match (pos : number) (nodes : list HTMLElement) :
  Forall (fun s => inSlide pos s = false) nodes ->
  forall index st,
    forEach_from (updateCurrentSlide_callback pos) index nodes st = st.
Proof.
  induction 1 as [|s nodes Hs _ IH]; intros index st; simpl; [reflexivity|].
  rewrite IH. unfold updateCurrentSlide_callback.
  destruct st as [sm log]. now rewrite Hs.
Qed.

Lemma update_callback_match pos slide index st :
  inSlide pos slide = true ->
  currentSlide (fst (updateCurrentSlide_callback pos slide index st))
  = (Z.of_nat index + 1)%Z.
Proof.
  intro Hin. unfold updateCurrentSlide_callback. destruct st as [sm log].
  rewrite Hin.
  destruct (Z.eqb_spec (Z.of_nat index + 1) (currentSlide sm)) as [E|E]; simpl; auto.
Qed.

Lemma update_last_match (pos : number) (before : list HTMLElement)
    (slide : HTMLElement) (after : list HTMLElement) :
  inSlide pos slide = true ->
  Forall (fun s => inSlide pos s = false) after ->
  forall index st,
    currentSlide
      (fst (forEach_from (updateCurrentSlide_callback pos) index
              (before ++ slide :: after) st))
    = (Z.of_nat (index + List.length before) + 1)%Z.
Proof.
  intros Hin Hafter.
  induction before as [|b before IH]; intros index st; simpl.
  - rewrite update_no_match by assumption.
    rewrite update_callback_match by assumption. f_equal. f_equal. lia.
  - rewrite IH. f_equal. f_equal. lia.
Qed.

(** ** Which slide the focus point selects *)

Example index_mid_slide :
  getCurrentSlideIndex (windowAt 90 100 300) (sampleManager threeSlides) = 1%Z.
Proof. reflexivity. Qed.

Example index_at_boundary :
  getCurrentSlideIndex (windowAt 150 100 300) (sampleManager threeSlides) = 2%Z.
Proof. reflexivity. Qed.

(** Five slides of height 100 under a viewport of height 100, loaded at
    offset 200: the index is 2 and the counter is set to 3. *)
Example five_slides_offset_2H :
  let nodes := [slideAt 0 100; slideAt 100 100; slideAt 200 100;
                slideAt 300 100; slideAt 400 100] in
  getCurrentSlideIndex (windowAt 200 100 500) (sampleManager nodes) = 2%Z /\
  effects (DOMContentLoaded (windowAt 200 100 500) nodes
             (Some 0%nat) (Some 1%nat) (Some 2%nat) (Some 3%nat))
  = [SetStyleWidth 0%nat (Fin (200 / (500 + - 100) * 100));
     SetTextContent 1%nat 3; SetDisabled 2%nat false; SetDisabled 3%nat false].
Proof. split; reflexivity. Qed.

(** Where ranges overlap the scan keeps the last match. *)
Example index_overlapping_ranges :
  getCurrentSlideIndex (windowAt 10 100 300)
    (sampleManager [slideAt 0 100; slideAt 50 100]) = 1%Z.
Proof. reflexivity. Qed.

(** The sum is rounded as the engine rounds it: at
    [pageYOffset = 50 - 2^-47] under a viewport of height 100 the exact sum
    is below 100, the computed focus point is 100 and the second slide is
    selected. *)
Example focus_point_is_rounded :
  (7036874417766399 # 140737488355328) + 50 < 100 /\
  scrollPosition (windowAt (7036874417766399 # 140737488355328) 100 300) = Fin 100 /\
  getCurrentSlideIndex (windowAt (7036874417766399 # 140737488355328) 100 300)
    (sampleManager threeSlides) = 1%Z.
Proof. split; [reflexivity|]. split; vm_compute; reflexivity. Qed.








(** ** Navigation *)

Lemma scan_bounds (pos : number) (nodes : list HTMLElement) :
  forall index cur,
    let r := forEach_from (getCurrentSlideIndex_callback pos) index nodes cur in
    r = cur \/
    (Z.of_nat index <= r < Z.of_nat index + Z.of_nat (List.length nodes))%Z.
Proof.
  induction nodes as [|s nodes IH]; intros index cur; simpl; [now left|].
  destruct (IH (S index) (getCurrentSlideIndex_callback pos s index cur)) as [E|B].
  - rewrite E. unfold getCurrentSlideIndex_callback.
    destruct (inSlide pos s); [right; lia|now left].
  - right. lia.
Qed.

(** The index read by the navigation code is 0 or a valid slide index. *)
Lemma getCurrentSlideIndex_range (w : Window) (sm : SlideManager) :
  (0 <= getCurrentSlideIndex w sm)%Z /\
  (getCurrentSlideIndex w sm = 0 \/ getCurrentSlideIndex w sm < totalSlides sm)%Z.
Proof.
  rewrite getCurrentSlideIndex_scan. unfold totalSlides.
  destruct (scan_bounds (scrollPosition w) (slides sm) 0 0%Z) as [E|B].
  - rewrite E. split; [lia|now left].
  - split; [lia|right; lia].
Qed.

Lemma goToSlide_in_range (sm : SlideManager) (i : Z) :
  (0 <= i < totalSlides sm)%Z ->
  goToSlide sm i = ([ScrollIntoView i smoothStart], Some tt).
Proof.
  unfold totalSlides, goToSlide, item. intros [Hlo Hhi].
  replace (i >=? 0)%Z with true by (symmetry; apply Z.geb_le; lia).
  replace (i <? Z.of_nat (List.length (slides sm)))%Z with true
    by (symmetry; apply Z.ltb_lt; lia).
  replace (i <? 0)%Z with false by (symmetry; apply Z.ltb_ge; lia).
  simpl.
  destruct (nth_error (slides sm) (Z.to_nat i)) eqn:E; [reflexivity|].
  apply nth_error_None in E. lia.
Qed.

Lemma goToSlide_out_of_range (sm : SlideManager) (i : Z) :
  (i < 0 \/ totalSlides sm <= i)%Z ->
  goToSlide sm i = ([], Some tt).
Proof.
  unfold totalSlides, goToSlide. intros H.
  destruct (i >=? 0)%Z eqn:E1; [|reflexivity].
  destruct (i <? Z.of_nat (List.length (slides sm)))%Z eqn:E2; [|reflexivity].
  apply Z.geb_le in E1. apply Z.ltb_lt in E2. lia.
Qed.

(** C6. [goToSlide(i)] with [i] outside [[0, N)] does nothing; with [i]
    inside it issues exactly one request, a smooth scroll that puts the top
    of slide [i] at the top of the viewport, and never reads past the end
    of the slide list. *)
Theorem goToSlide_bounds_checked (sm : SlideManager) (i : Z) :
  ((i < 0 \/ totalSlides sm <= i)%Z -> goToSlide sm i = ([], Some tt)) /\
  ((0 <= i < totalSlides sm)%Z ->
   goToSlide sm i
   = ([ScrollIntoView i {| behavior := Smooth; block := Start |}], Some tt)).
Proof.
  split; [apply goToSlide_out_of_range | apply goToSlide_in_range].
Qed.

Lemma goToSlide_bounds_checked_witness :
  goToSlide (sampleManager threeSlides) 3 = ([], Some tt) /\
  goToSlide (sampleManager threeSlides) (-1) = ([], Some tt) /\
  goToSlide (sampleManager threeSlides) 2
  = ([ScrollIntoView 2 {| behavior := Smooth; block := Start |}], Some tt).
Proof.
  split; [|split].
  - apply (proj1 (goToSlide_bounds_checked (sampleManager threeSlides) 3)).
    right; vm_compute; congruence.
  - apply (proj1 (goToSlide_bounds_checked (sampleManager threeSlides) (-1))).
    left; lia.
  - apply (proj2 (goToSlide_bounds_checked (sampleManager threeSlides) 2)).
    vm_compute; split; congruence.
Defined.

(** C5. With at least one slide, [navigateUp] requests slide
    [max(currentIndex - 1, 0)] and [navigateDown] requests slide
    [min(currentIndex + 1, N - 1)]; both targets lie in [[0, N - 1]], so
    however often either is invoked, and wherever the page has scrolled in
    between, no request goes below 0 or above [N - 1]. *)
Theorem navigate_targets_clamped (sm : SlideManager) :
  (1 <= totalSlides sm)%Z ->
  (forall w : Window,
      let currentIndex := getCurrentSlideIndex w sm in
      navigateUp w sm
      = ([ScrollIntoView (Z.max (currentIndex - 1) 0) smoothStart], Some tt) /\
      navigateDown w sm
      = ([ScrollIntoView (Z.min (currentIndex + 1) (totalSlides sm - 1)) smoothStart],
         Some tt) /\
      (0 <= Z.max (currentIndex - 1) 0 <= totalSlides sm - 1)%Z /\
      (0 <= Z.min (currentIndex + 1) (totalSlides sm - 1) <= totalSlides sm - 1)%Z) /\
  (forall ws : list Window,
      requestsWithin 0 (totalSlides sm - 1) (repeated navigateUp sm ws) /\
      requestsWithin 0 (totalSlides sm - 1) (repeated navigateDown sm ws)).
Proof.
  intro HN.
  assert (Hone : forall w : Window,
             let currentIndex := getCurrentSlideIndex w sm in
             navigateUp w sm
             = ([ScrollIntoView (Z.max (currentIndex - 1) 0) smoothStart], Some tt) /\
             navigateDown w sm
             = ([ScrollIntoView (Z.min (currentIndex + 1) (totalSlides sm - 1))
                   smoothStart], Some tt) /\
             (0 <= Z.max (currentIndex - 1) 0 <= totalSlides sm - 1)%Z /\
             (0 <= Z.min (currentIndex + 1) (totalSlides sm - 1)
              <= totalSlides sm - 1)%Z).
  { intros w currentIndex.
    destruct (getCurrentSlideIndex_range w sm) as [Hlo Hhi].
    fold currentIndex in Hlo, Hhi.
    assert (Hup : (0 <= Z.max (currentIndex - 1) 0 <= totalSlides sm - 1)%Z) by lia.
    assert (Hdown : (0 <= Z.min (currentIndex + 1) (totalSlides sm - 1)
                     <= totalSlides sm - 1)%Z) by lia.
    split; [|split; [|split; assumption]].
    - unfold navigateUp. fold currentIndex. apply goToSlide_in_range. lia.
    - unfold navigateDown. fold currentIndex. fold (totalSlides sm).
      apply goToSlide_in_range. lia. }
  split; [exact Hone|].
  intros ws. unfold requestsWithin, repeated.
  split; induction ws as [|w ws IH]; simpl; try constructor;
    apply Forall_app; (split; [|exact IH]);
    destruct (Hone w) as (Hu & Hd & Bu & Bd).
  - rewrite Hu. simpl. repeat constructor; lia.
  - rewrite Hd. simpl. repeat constructor; lia.
Qed.

Lemma navigate_targets_clamped_witness :
  navigateDown (windowAt 150 100 300) (sampleManager threeSlides)
  = ([ScrollIntoView 2 smoothStart], Some tt) /\
  navigateUp (windowAt 0 100 300) (sampleManager threeSlides)
  = ([ScrollIntoView 0 smoothStart], Some tt).
Proof.
  assert (H : (1 <= totalSlides (sampleManager threeSlides))%Z)
    by (vm_compute; congruence).
  split.
  - exact (proj1 (proj2 (proj1 (navigate_targets_clamped _ H) (windowAt 150 100 300)))).
  - exact (proj1 (proj1 (navigate_targets_clamped _ H) (windowAt 0 100 300))).
Defined.

Lemma bind_emit (e : effect) (m : Dom unit) :
  (emit e ;; m) = (e :: fst m, snd m).
Proof. destruct m as [es r]. reflexivity. Qed.

(** C8. With no slides, every navigation operation completes without a
    scroll request and without reading a slide: [goToSlide] on any index,
    [navigateUp], [navigateDown] (the button clicks) and the keyboard
    handler on any key. *)
Theorem no_slides_no_navigation (w : Window) (sm : SlideManager) :
  slides sm = [] ->
  (forall i : Z, goToSlide sm i = ([], Some tt)) /\
  navigateUp w sm = ([], Some tt) /\
  navigateDown w sm = ([], Some tt) /\
  (forall key : string,
      count isScrollRequest (effects (handleKeydown w sm key)) = 0%nat /\
      completes (handleKeydown w sm key) = true).
Proof.
  intro Hempty.
  assert (Hgo : forall i : Z, goToSlide sm i = ([], Some tt)).
  { intro i. apply goToSlide_out_of_range. unfold totalSlides.
    rewrite Hempty. simpl. lia. }
  split; [exact Hgo|].
  split; [apply Hgo|].
  split; [apply Hgo|].
  intro key. unfold handleKeydown.
  repeat match goal with
         | |- context [if ?c then _ else _] => destruct c
         end;
    rewrite ?bind_emit, ?Hgo; split; reflexivity.
Qed.

Lemma no_slides_no_navigation_witness :
  navigateDown (windowAt 0 100 100) (sampleManager []) = ([], Some tt) /\
  effects (handleKeydown (windowAt 0 100 100) (sampleManager []) "PageDown")
  = [PreventDefault].
Proof.
  pose proof (no_slides_no_navigation (windowAt 0 100 100) (sampleManager [])
                eq_refl) as (_ & _ & Hdown & _).
  split; [exact Hdown|reflexivity].
Defined.

(** C10. With at least one slide, ['Home'] requests slide 0 and ['End']
    requests slide [N - 1], wherever the page is scrolled; with no slide
    ['End'] calls [goToSlide(-1)], which requests nothing. *)
Theorem home_end_keys (w : Window) (sm : SlideManager) :
  ((1 <= totalSlides sm)%Z ->
   handleKeydown w sm "Home"
   = ([PreventDefault; ScrollIntoView 0 smoothStart], Some tt) /\
   handleKeydown w sm "End"
   = ([PreventDefault; ScrollIntoView (totalSlides sm - 1) smoothStart], Some tt)) /\
  (totalSlides sm = 0%Z ->
   handleKeydown w sm "End" = (emit PreventDefault ;; goToSlide sm (-1)) /\
   handleKeydown w sm "End" = ([PreventDefault], Some tt)).
Proof.
  split.
  - intro HN. split.
    + change (handleKeydown w sm "Home") with (emit PreventDefault ;; goToSlide sm 0).
      rewrite bind_emit, goToSlide_in_range by lia. reflexivity.
    + change (handleKeydown w sm "End")
        with (emit PreventDefault ;; goToSlide sm (totalSlides sm - 1)).
      rewrite bind_emit, goToSlide_in_range by lia. reflexivity.
  - intro HN.
    change (handleKeydown w sm "End")
      with (emit PreventDefault ;; goToSlide sm (totalSlides sm - 1)).
    rewrite HN. split; [reflexivity|].
    rewrite bind_emit, goToSlide_out_of_range by lia. reflexivity.
Qed.

Lemma home_end_keys_witness :
  handleKeydown (windowAt 0 100 300) (sampleManager threeSlides) "End"
  = ([PreventDefault; ScrollIntoView 2 smoothStart], Some tt) /\
  handleKeydown (windowAt 150 100 300) (sampleManager threeSlides) "Home"
  = ([PreventDefault; ScrollIntoView 0 smoothStart], Some tt) /\
  handleKeydown (windowAt 0 100 100) (sampleManager []) "End"
  = ([PreventDefault], Some tt).
Proof.
  split; [|split].
  - apply (proj1 (home_end_keys (windowAt 0 100 300) (sampleManager threeSlides))).
    vm_compute; congruence.
  - apply (proj1 (home_end_keys (windowAt 150 100 300) (sampleManager threeSlides))).
    vm_compute; congruence.
  - apply (proj2 (home_end_keys (windowAt 0 100 100) (sampleManager []))).
    reflexivity.
Defined.

(** ** Scroll progress *)

Lemma documentHeight_fin (w : Window) : documentHeight w = Fin (documentHeightQ w).
Proof. reflexivity. Qed.

Lemma documentHeightQ_inject (w : Window) :
  documentHeightQ w == inject_Z (scrollHeight w - innerHeight w).
Proof.
  unfold documentHeightQ, Z.sub. now rewrite inject_Z_plus, inject_Z_opp.
Qed.


Lemma documentHeightQ_neg (w : Window) :
  (scrollHeight w - innerHeight w < 0)%Z -> documentHeightQ w < 0.
Proof.
  intro H. rewrite documentHeightQ_inject.
  change 0 with (inject_Z 0). now rewrite <- Zlt_Qlt.
Qed.

Lemma documentHeightQ_zero (w : Window) :
  scrollHeight w = innerHeight w -> documentHeightQ w == 0.
Proof.
  intro H. rewrite documentHeightQ_inject, H, Z.sub_diag. reflexivity.
Qed.

Lemma Qeq_bool_false (x : Q) : ~ x == 0 -> Qeq_bool x 0 = false.
Proof.
  intro H. destruct (Qeq_bool x 0) eqn:E; [|reflexivity].
  apply Qeq_bool_iff in E. contradiction.
Qed.

Lemma Qeq_bool_true (x : Q) : x == 0 -> Qeq_bool x 0 = true.
Proof. intro H. now apply Qeq_bool_iff. Qed.

(** With a non-zero scroll range the division is an ordinary one. *)
Lemma progress_nonzero_range (w : Window) :
  ~ documentHeightQ w == 0 ->
  progress w = Fin (pageYOffset w / documentHeightQ w * 100).
Proof.
  intro H. unfold progress. rewrite documentHeight_fin. simpl.
  now rewrite Qeq_bool_false.
Qed.


Lemma updateScrollProgress_present (w : Window) (sm : SlideManager) (el : Node) :
  scrollProgress sm = Some el ->
  updateScrollProgress w sm
  = ([SetStyleWidth el (Math_min (progress w) (Fin 100))], Some tt).
Proof. intro H. unfold updateScrollProgress. now rewrite H. Qed.

Example progress_halfway :
  updateScrollProgress (windowAt 100 100 300) (sampleManager threeSlides)
  = ([SetStyleWidth 0%nat (Fin (100 / (300 + - 100) * 100))], Some tt).
Proof. reflexivity. Qed.

(** Past the end of a page that has no scroll range the quotient is
    [Infinity], clamped to 100. *)
Example progress_zero_range_overscroll :
  progress (windowAt 5 800 800) = PosInf /\
  updateScrollProgress (windowAt 5 800 800) (sampleManager threeSlides)
  = ([SetStyleWidth 0%nat (Fin 100)], Some tt).
Proof. split; reflexivity. Qed.



(** C2, as stated, fails: when the document is exactly as high as the
    viewport the quotient is [0 / 0], the progress is [NaN], not a number
    equal to 0, and the width written is [NaN%]. *)
Lemma progress_zero_range_is_NaN :
  (scrollHeight (windowAt 0 800 800) - innerHeight (windowAt 0 800 800) <= 0)%Z /\
  progress (windowAt 0 800 800) = NaN /\
  updateScrollProgress (windowAt 0 800 800) (sampleManager threeSlides)
  = ([SetStyleWidth 0%nat NaN], Some tt) /\
  ~ (exists p : Q, p == 0 /\ progress (windowAt 0 800 800) = Fin p).
Proof.
  split; [simpl; lia|].
  split; [reflexivity|].
  split; [reflexivity|].
  intros (p & _ & H). change (progress (windowAt 0 800 800)) with NaN in H.
  discriminate.
Qed.

(** C2, amended. There is no guard on the scroll range.  On a document that
    cannot scroll ([scrollHeight - innerHeight <= 0]) and sits at offset 0:
    if the range is negative the progress is 0 and the width written is
    [0%]; if the range is exactly 0 the progress is [NaN] and the width
    written is [NaN%]. *)
Theorem progress_without_scroll_range (w : Window) (sm : SlideManager) (el : Node) :
  scrollProgress sm = Some el ->
  (scrollHeight w - innerHeight w <= 0)%Z ->
  pageYOffset w == 0 ->
  if (scrollHeight w =? innerHeight w)%Z
  then progress w = NaN /\
       updateScrollProgress w sm = ([SetStyleWidth el NaN], Some tt)
  else exists p : Q,
      p == 0 /\ progress w = Fin p /\
      updateScrollProgress w sm = ([SetStyleWidth el (Fin p)], Some tt).
Proof.
  intros Hel Hrange Hzero.
  rewrite (updateScrollProgress_present _ _ el Hel).
  destruct (Z.eqb_spec (scrollHeight w) (innerHeight w)) as [E|E].
  - assert (Hnan : progress w = NaN).
    { unfold progress. rewrite documentHeight_fin. simpl.
      rewrite (Qeq_bool_true _ (documentHeightQ_zero w E)).
      now rewrite (Qeq_bool_true _ Hzero). }
    rewrite Hnan. split; reflexivity.
  - assert (Hneg : documentHeightQ w < 0) by (apply documentHeightQ_neg; lia).
    assert (Hnz : ~ documentHeightQ w == 0)
      by (intro E0; rewrite E0 in Hneg; discriminate).
    rewrite (progress_nonzero_range w Hnz).
    set (p := pageYOffset w / documentHeightQ w * 100).
    assert (Hp : p == 0) by (unfold p; rewrite Hzero; unfold Qdiv; ring).
    exists p. split; [exact Hp|]. split; [reflexivity|].
    simpl. replace (Qlt_bool 100 p) with false; [reflexivity|].
    symmetry. apply Qlt_bool_false_iff. rewrite Hp. discriminate.
Qed.

Lemma progress_without_scroll_range_witness :
  (exists p : Q,
      p == 0 /\ progress (windowAt 0 800 790) = Fin p /\
      updateScrollProgress (windowAt 0 800 790) (sampleManager threeSlides)
      = ([SetStyleWidth 0%nat (Fin p)], Some tt)) /\
  progress (windowAt 0 800 800) = NaN.
Proof.
  split.
  - apply (progress_without_scroll_range (windowAt 0 800 790)
             (sampleManager threeSlides) 0%nat).
    + reflexivity.
    + simpl; lia.
    + reflexivity.
  - apply (progress_without_scroll_range (windowAt 0 800 800)
             (sampleManager threeSlides) 0%nat).
    + reflexivity.
    + simpl; lia.
    + reflexivity.
Defined.

(** ** Scroll notifications and animation frames *)

Lemma count_app (f : effect -> bool) (l1 l2 : list effect) :
  count f (l1 ++ l2) = (count f l1 + count f l2)%nat.
Proof. unfold count. now rewrite filter_app, length_app. Qed.

(** A burst only queues callbacks: [k] notifications queue the listeners'
    callbacks [k] times over and leave the manager untouched. *)
Lemma scrollBurst_queue (ws : list Window) :
  forall p : Page,
    manager (scrollBurst ws p) = manager p /\
    navigation (scrollBurst ws p) = navigation p /\
    animationFrameCallbacks (scrollBurst ws p)
    = animationFrameCallbacks p ++ List.concat (map (fun _ => scrollListeners p) ws).
Proof.
  induction ws as [|w ws IH]; intro p; simpl.
  - now rewrite app_nil_r.
  - destruct (IH (dispatchScroll w p)) as (Hm & Hn & Hq).
    unfold scrollBurst in *. simpl in *.
    rewrite Hm, Hn, Hq.
    split; [reflexivity|]. split; [reflexivity|].
    rewrite <- app_assoc. reflexivity.
Qed.

(** A step of the scan of [updateCurrentSlide] writes to the counter only. *)
Lemma update_callback_writes (f : effect -> bool) (pos : number)
    (slide : HTMLElement) (index : nat) (sm : SlideManager) (log : list effect) :
  (forall el v, f (SetTextContent el v) = false) ->
  scrollProgress (fst (updateCurrentSlide_callback pos slide index (sm, log)))
  = scrollProgress sm /\
  count f (snd (updateCurrentSlide_callback pos slide index (sm, log))) = count f log.
Proof.
  intro Hf. unfold updateCurrentSlide_callback.
  destruct (inSlide pos slide); [|auto].
  destruct (negb _); [|auto].
  simpl. split; [reflexivity|].
  rewrite count_app. unfold updateSlideCounter; simpl.
  destruct (currentSlideElement sm); unfold count; simpl; rewrite ?Hf; simpl; lia.
Qed.

Lemma update_scan_writes (f : effect -> bool) (pos : number)
    (nodes : list HTMLElement) :
  (forall el v, f (SetTextContent el v) = false) ->
  forall index sm log,
    scrollProgress
      (fst (forEach_from (updateCurrentSlide_callback pos) index nodes (sm, log)))
    = scrollProgress sm /\
    count f (snd (forEach_from (updateCurrentSlide_callback pos) index nodes (sm, log)))
    = count f log.
Proof.
  intro Hf. induction nodes as [|s nodes IH]; intros index sm log; [simpl; auto|].
  cbn [forEach_from].
  destruct (update_callback_writes f pos s index sm log Hf) as [S1 S2].
  destruct (updateCurrentSlide_callback pos s index (sm, log)) as [sm1 log1].
  destruct (IH (S index) sm1 log1) as [H1 H2].
  simpl in S1, S2. split; congruence.
Qed.

(** One callback: the manager's writes the width once, the navigation's
    writes both buttons' [disabled]; neither touches the queue or removes
    an element. *)
Lemma runCallback_writes (bar up down : Node) (cb : FrameRequestCallback)
    (p : Page) (log : list effect) :
  scrollProgress (manager p) = Some bar ->
  upButton (navigation p) = Some up ->
  downButton (navigation p) = Some down ->
  scrollProgress (manager (fst (runCallback cb (p, log)))) = Some bar /\
  navigation (fst (runCallback cb (p, log))) = navigation p /\
  animationFrameCallbacks (fst (runCallback cb (p, log))) = animationFrameCallbacks p /\
  count isWidthWrite (snd (runCallback cb (p, log)))
  = (count isWidthWrite log + widthWritesOf cb)%nat /\
  count isDisabledWrite (snd (runCallback cb (p, log)))
  = (count isDisabledWrite log + disabledWritesOf cb)%nat.
Proof.
  intros Hbar Hup Hdown. destruct cb; unfold runCallback.
  - rewrite (updateScrollProgress_present _ _ bar Hbar).
    unfold updateCurrentSlide, forEach.
    destruct (update_scan_writes isWidthWrite (scrollPosition (window p))
                (slides (manager p)) (fun _ _ => eq_refl) 0%nat (manager p) [])
      as [Hsp Hw].
    destruct (update_scan_writes isDisabledWrite (scrollPosition (window p))
                (slides (manager p)) (fun _ _ => eq_refl) 0%nat (manager p) [])
      as [_ Hd].
    destruct (forEach_from _ 0%nat (slides (manager p)) (manager p, [])) as [sm' es].
    simpl in Hsp, Hw, Hd. simpl.
    change (SetStyleWidth ?a ?b :: es) with ([SetStyleWidth a b] ++ es).
    rewrite !count_app, Hw, Hd.
    repeat split; try congruence; unfold count; simpl; lia.
  - unfold updateButtonStates, setDisabled. rewrite Hup, Hdown. simpl.
    rewrite !count_app.
    repeat split; try assumption; unfold count; simpl; lia.
Qed.

(** Running a queue: one width write per [SlideManagerFrame] callback and
    two [disabled] writes per [SlideNavigationFrame] callback. *)
Lemma run_callbacks_writes (bar up down : Node)
    (callbacks : list FrameRequestCallback) :
  forall (p : Page) (log : list effect),
    scrollProgress (manager p) = Some bar ->
    upButton (navigation p) = Some up ->
    downButton (navigation p) = Some down ->
    count isWidthWrite (snd (fold_left (fun st cb => runCallback cb st) callbacks (p, log)))
    = (count isWidthWrite log + framesOf SlideManagerFrame callbacks)%nat /\
    count isDisabledWrite
      (snd (fold_left (fun st cb => runCallback cb st) callbacks (p, log)))
    = (count isDisabledWrite log + 2 * framesOf SlideNavigationFrame callbacks)%nat /\
    animationFrameCallbacks
      (fst (fold_left (fun st cb => runCallback cb st) callbacks (p, log)))
    = animationFrameCallbacks p.
Proof.
  induction callbacks as [|cb callbacks IH]; intros p log Hbar Hup Hdown.
  - simpl. unfold framesOf; simpl. repeat split; lia.
  - cbn [fold_left].
    destruct (runCallback_writes bar up down cb p log Hbar Hup Hdown)
      as (Sbar & Snav & Sq & Sw & Sd).
    destruct (runCallback cb (p, log)) as [p1 log1]. simpl in Sbar, Snav, Sq, Sw, Sd.
    destruct (IH p1 log1) as (IHw & IHd & IHq); [exact Sbar| congruence | congruence |].
    rewrite IHw, IHd, IHq, Sw, Sd, Sq.
    destruct cb; unfold framesOf; simpl; repeat split; lia.
Qed.

Lemma framesOf_burst (p : Page) (up down : Node) (ws : list Window) :
  upButton (navigation p) = Some up ->
  downButton (navigation p) = Some down ->
  framesOf SlideManagerFrame (List.concat (map (fun _ => scrollListeners p) ws))
  = List.length ws /\
  framesOf SlideNavigationFrame (List.concat (map (fun _ => scrollListeners p) ws))
  = List.length ws.
Proof.
  intros Hup Hdown. unfold scrollListeners. rewrite Hup, Hdown.
  unfold framesOf. induction ws as [|w ws [IH1 IH2]]; simpl; [auto|].
  simpl in IH1, IH2. rewrite IH1, IH2. auto.
Qed.

(** C9, as stated, fails: two scroll notifications before a frame make that
    frame write the progress width twice and the button states twice. *)
Lemma two_scrolls_two_recomputations :
  let log := snd (animationFrame
                    (scrollBurst [windowAt 40 100 300; windowAt 90 100 300]
                       (samplePage threeSlides))) in
  count isWidthWrite log = 2%nat /\
  count isDisabledWrite log = 4%nat /\
  ~ (count isWidthWrite log <= 1)%nat.
Proof.
  vm_compute. repeat split; lia.
Qed.

(** C9, amended. Each scroll notification queues its own animation-frame
    callbacks and nothing is recomputed before the frame; the next frame
    then runs the recomputation once per notification received: after [k]
    notifications it writes the progress width [k] times and each button's
    state [k] times, and leaves the queue empty. *)
Theorem frame_recomputes_once_per_scroll
    (p : Page) (ws : list Window) (bar up down : Node) :
  animationFrameCallbacks p = [] ->
  scrollProgress (manager p) = Some bar ->
  upButton (navigation p) = Some up ->
  downButton (navigation p) = Some down ->
  manager (scrollBurst ws p) = manager p /\
  count isWidthWrite (snd (animationFrame (scrollBurst ws p))) = List.length ws /\
  count isDisabledWrite (snd (animationFrame (scrollBurst ws p)))
  = (2 * List.length ws)%nat /\
  animationFrameCallbacks (fst (animationFrame (scrollBurst ws p))) = [].
Proof.
  intros Hq Hbar Hup Hdown.
  destruct (scrollBurst_queue ws p) as (Hm & Hn & Hcb).
  split; [exact Hm|].
  unfold animationFrame. rewrite Hcb, Hq. simpl app.
  match goal with
  | |- context [fold_left _ ?cbs (?p0, [])] =>
      destruct (run_callbacks_writes bar up down cbs p0 []) as (Hw & Hd & Hr);
        [simpl; congruence | simpl; congruence | simpl; congruence |]
  end.
  destruct (framesOf_burst p up down ws Hup Hdown) as [F1 F2].
  rewrite Hw, Hd, Hr, F1, F2. unfold count; simpl. repeat split; lia.
Qed.

Lemma frame_recomputes_once_per_scroll_witness :
  count isWidthWrite
    (snd (animationFrame
            (scrollBurst [windowAt 40 100 300; windowAt 90 100 300; windowAt 150 100 300]
               (samplePage threeSlides)))) = 3%nat.
Proof.
  refine (proj1 (proj2 (frame_recomputes_once_per_scroll (samplePage threeSlides)
                          [windowAt 40 100 300; windowAt 90 100 300; windowAt 150 100 300]
                          0%nat 2%nat 3%nat _ _ _ _))); reflexivity.
Defined.

(** * Further properties of the code *)

(** ** The tracker and the query *)

Lemma match_or_none (pos : number) (nodes : list HTMLElement) :
  Forall (fun s => inSlide pos s = false) nodes \/
  exists before slide after,
    nodes = before ++ slide :: after /\
    inSlide pos slide = true /\
    Forall (fun s => inSlide pos s = false) after.
Proof.
  induction nodes as [|s nodes IH].
  - left. constructor.
  - destruct IH as [Hnone | (before & slide & after & -> & Hin & Hafter)].
    + destruct (inSlide pos s) eqn:E.
      * right. exists [], s, nodes. auto.
      * left. now constructor.
    + right. exists (s :: before), slide, after. auto.
Qed.

Lemma item_app_middle (before : list HTMLElement) (slide : HTMLElement)
    (after : list HTMLElement) :
  item (before ++ slide :: after) (Z.of_nat (List.length before)) = Some slide.
Proof.
  unfold item.
  replace (Z.of_nat (List.length before) <? 0)%Z with false
    by (symmetry; apply Z.ltb_ge; lia).
  rewrite Nat2Z.id, nth_error_app2 by lia.
  now rewrite Nat.sub_diag.
Qed.

(** X1. Whatever the layout, when some slide contains the focus point, as
    the code computes it, the index returned by [getCurrentSlideIndex] is
    that of a slide containing it, no later slide contains it, and
    [updateCurrentSlide] leaves [currentSlide] at that index plus one. *)
Theorem tracker_agrees_with_query (w : Window) (sm : SlideManager) :
  Exists (fun slide => focusInRange w slide) (slides sm) ->
  exists (log : list effect) (sm' : SlideManager) (slide : HTMLElement),
    updateCurrentSlide w sm = (log, Some sm') /\
    currentSlide sm' = (getCurrentSlideIndex w sm + 1)%Z /\
    item (slides sm) (getCurrentSlideIndex w sm) = Some slide /\
    focusInRange w slide /\
    forall (j : nat) (later : HTMLElement),
      (getCurrentSlideIndex w sm < Z.of_nat j)%Z ->
      nth_error (slides sm) j = Some later ->
      ~ focusInRange w later.
Proof.
  intro Hex.
  destruct (match_or_none (scrollPosition w) (slides sm))
    as [Hnone | (before & slide & after & Hsplit & Hin & Hafter)].
  - exfalso. apply Exists_exists in Hex. destruct Hex as (s & Hs & Hr).
    rewrite Forall_forall in Hnone. specialize (Hnone s Hs).
    apply focusInRange_false in Hnone. contradiction.
  - assert (Hidx : getCurrentSlideIndex w sm = Z.of_nat (List.length before)).
    { rewrite getCurrentSlideIndex_scan, Hsplit.
      now rewrite scan_last_match by assumption. }
    pose proof (update_last_match (scrollPosition w) before slide after
                  Hin Hafter 0%nat (sm, [])) as Hcur.
    unfold updateCurrentSlide, forEach. rewrite Hsplit.
    destruct (forEach_from _ 0%nat (before ++ slide :: after) (sm, [])) as [sm' log].
    exists log, sm', slide. rewrite Hidx.
    split; [reflexivity|].
    split; [exact Hcur|].
    split; [apply item_app_middle|].
    split; [now apply focusInRange_iff|].
    intros j later Hj Hnth Hr.
    rewrite nth_error_app2 in Hnth by lia.
    destruct (j - List.length before)%nat as [|n] eqn:E; [lia|].
    simpl in Hnth. apply nth_error_In in Hnth.
    rewrite Forall_forall in Hafter. specialize (Hafter later Hnth).
    apply focusInRange_false in Hafter. contradiction.
Qed.

Lemma tracker_agrees_with_query_witness :
  exists (log : list effect) (sm' : SlideManager),
    updateCurrentSlide (windowAt 10 100 300)
      (sampleManager [slideAt 0 100; slideAt 50 100]) = (log, Some sm') /\
    currentSlide sm' = 2%Z.
Proof.
  destruct (tracker_agrees_with_query (windowAt 10 100 300)
              (sampleManager [slideAt 0 100; slideAt 50 100]))
    as (log & sm' & slide & Hup & Hcur & _).
  - apply Exists_cons_hd. exists 60.
    split; [vm_compute; reflexivity|]. split; vm_compute; congruence.
  - exists log, sm'. split; [exact Hup|exact Hcur].
Defined.

(** X2. With at least one slide the index returned by
    [getCurrentSlideIndex] always names an existing slide. *)
Theorem getCurrentSlideIndex_names_a_slide (w : Window) (sm : SlideManager) :
  slides sm <> [] ->
  exists slide : HTMLElement,
    item (slides sm) (getCurrentSlideIndex w sm) = Some slide.
Proof.
  intro Hne.
  destruct (getCurrentSlideIndex_range w sm) as [Hlo Hhi].
  assert (HN : (1 <= totalSlides sm)%Z).
  { unfold totalSlides. destruct (slides sm); [congruence|simpl; lia]. }
  unfold item.
  replace (getCurrentSlideIndex w sm <? 0)%Z with false
    by (symmetry; apply Z.ltb_ge; lia).
  destruct (nth_error (slides sm) (Z.to_nat (getCurrentSlideIndex w sm))) eqn:E.
  - now exists h.
  - apply nth_error_None in E. unfold totalSlides in *. lia.
Qed.

Lemma getCurrentSlideIndex_names_a_slide_witness :
  exists slide : HTMLElement,
    item threeSlides
      (getCurrentSlideIndex (windowAt 5000 100 300) (sampleManager threeSlides))
    = Some slide.
Proof.
  apply (getCurrentSlideIndex_names_a_slide (windowAt 5000 100 300)
           (sampleManager threeSlides)).
  discriminate.
Defined.

(** ** [updateCurrentSlide] on a stacked layout *)

Lemma stacked_earlier_miss (y : Q) (before : list HTMLElement)
    (slide : HTMLElement) (after : list HTMLElement) :
  stacked (before ++ slide :: after) ->
  inject_Z (offsetTop slide) <= y ->
  Forall (fun earlier => inSlide (Fin y) earlier = false) before.
Proof.
  induction before as [|b before IH]; intros Hst Hy; [constructor|].
  constructor.
  - pose proof (stacked_tail b (before ++ slide :: after) Hst) as Ht.
    rewrite Forall_forall in Ht.
    assert (Hle : (offsetTop b + offsetHeight b <= offsetTop slide)%Z)
      by (apply Ht; apply in_or_app; right; now left).
    apply inSlide_false_iff. intros [_ Hlt].
    rewrite <- inject_Z_plus in Hlt.
    assert (inject_Z (offsetTop b + offsetHeight b) <= inject_Z (offsetTop slide))
      by (rewrite <- Zle_Qle; exact Hle).
    lra.
  - apply IH; [|exact Hy]. simpl in Hst. tauto.
Qed.

Lemma update_single_match (pos : number) (before : list HTMLElement)
    (slide : HTMLElement) (after : list HTMLElement) :
  Forall (fun s => inSlide pos s = false) before ->
  Forall (fun s => inSlide pos s = false) after ->
  forall index st,
    forEach_from (updateCurrentSlide_callback pos) index (before ++ slide :: after) st
    = updateCurrentSlide_callback pos slide (index + List.length before) st.
Proof.
  intros Hbefore Hafter. induction Hbefore as [|b before Hb _ IH]; intros index st.
  - simpl. rewrite update_no_match by assumption. now rewrite Nat.add_0_r.
  - simpl. rewrite IH.
    replace (S index + List.length before)%nat
      with (index + S (List.length before))%nat by lia.
    f_equal. unfold updateCurrentSlide_callback. destruct st. now rewrite Hb.
Qed.

(** On a stacked layout with the focus point in slide [k] the whole scan is
    the callback on slide [k]. *)
Lemma updateCurrentSlide_on_stacked (w : Window) (sm : SlideManager) (k : nat)
    (slide : HTMLElement) :
  stacked (slides sm) ->
  nth_error (slides sm) k = Some slide ->
  focusInRange w slide ->
  updateCurrentSlide w sm
  = if (Z.of_nat k + 1 =? currentSlide sm)%Z
    then ([], Some sm)
    else (match currentSlideElement sm with
          | Some el => [SetTextContent el (Z.of_nat k + 1)]
          | None => []
          end, Some (set_currentSlide sm (Z.of_nat k + 1))).
Proof.
  intros Hst Hk Hin.
  destruct (nth_error_decompose _ _ _ _ Hk) as (before & after & Hsplit & Hlen).
  assert (Hmatch : inSlide (scrollPosition w) slide = true)
    by now apply focusInRange_iff.
  assert (Hafter : Forall (fun s => inSlide (scrollPosition w) s = false) after).
  { apply stacked_later_miss_pos with (slide := slide); [|exact Hmatch].
    rewrite Hsplit in Hst. now apply stacked_app_inv in Hst. }
  assert (Hbefore : Forall (fun s => inSlide (scrollPosition w) s = false) before).
  { destruct Hin as (y & Hy & Hr). rewrite Hy.
    apply stacked_earlier_miss with (slide := slide) (after := after); [|apply Hr].
    now rewrite <- Hsplit. }
  unfold updateCurrentSlide, forEach. rewrite Hsplit.
  rewrite update_single_match by assumption.
  rewrite Hlen. simpl (0 + k)%nat.
  unfold updateCurrentSlide_callback. rewrite Hmatch.
  destruct (Z.of_nat k + 1 =? currentSlide sm)%Z; simpl; [reflexivity|].
  unfold updateSlideCounter. simpl.
  destruct (currentSlideElement sm); reflexivity.
Qed.

(** X3. On a stacked layout with the focus point, as the code computes
    it, in slide [k], [updateCurrentSlide] does nothing when [currentSlide] is already
    [k + 1]; otherwise it stores [k + 1] and writes it to the counter
    element once, or writes nothing when there is no counter element. *)
Theorem updateCurrentSlide_writes_once (w : Window) (sm : SlideManager) (k : nat)
    (slide : HTMLElement) :
  stacked (slides sm) ->
  nth_error (slides sm) k = Some slide ->
  focusInRange w slide ->
  (currentSlide sm = (Z.of_nat k + 1)%Z -> updateCurrentSlide w sm = ([], Some sm)) /\
  (currentSlide sm <> (Z.of_nat k + 1)%Z ->
   updateCurrentSlide w sm
   = (match currentSlideElement sm with
      | Some el => [SetTextContent el (Z.of_nat k + 1)]
      | None => []
      end, Some (set_currentSlide sm (Z.of_nat k + 1)))).
Proof.
  intros Hst Hk Hin.
  rewrite (updateCurrentSlide_on_stacked w sm k slide Hst Hk Hin).
  destruct (Z.eqb_spec (Z.of_nat k + 1) (currentSlide sm)) as [E|E];
    split; intro H; congruence.
Qed.

Lemma updateCurrentSlide_writes_once_witness :
  updateCurrentSlide (windowAt 150 100 300) (sampleManager threeSlides)
  = ([SetTextContent 1%nat 3], Some (set_currentSlide (sampleManager threeSlides) 3)).
Proof.
  refine (proj2 (updateCurrentSlide_writes_once (windowAt 150 100 300)
                   (sampleManager threeSlides) 2%nat (slideAt 200 100) _ _ _) _).
  - simpl; lia.
  - reflexivity.
  - exists 200. split; [vm_compute; reflexivity|]. split; vm_compute; congruence.
  - simpl; lia.
Defined.

Lemma updateCurrentSlide_settles (w : Window) (sm sm' : SlideManager)
    (log : list effect) :
  stacked (slides sm) ->
  updateCurrentSlide w sm = (log, Some sm') ->
  updateCurrentSlide w sm' = ([], Some sm').
Proof.
  intros Hst Hrun.
  destruct (match_or_none (scrollPosition w) (slides sm))
    as [Hnone | (before & slide & after & Hsplit & Hin & Hafter)].
  - unfold updateCurrentSlide, forEach in Hrun.
    rewrite update_no_match in Hrun by assumption.
    injection Hrun as <- <-.
    unfold updateCurrentSlide, forEach. now rewrite update_no_match.
  - assert (Hk : nth_error (slides sm) (List.length before) = Some slide).
    { rewrite Hsplit, nth_error_app2 by lia. now rewrite Nat.sub_diag. }
    assert (Hr : focusInRange w slide) by now apply focusInRange_iff.
    rewrite (updateCurrentSlide_on_stacked w sm _ slide Hst Hk Hr) in Hrun.
    destruct (Z.eqb_spec (Z.of_nat (List.length before) + 1) (currentSlide sm))
      as [E|E]; injection Hrun as <- <-.
    + rewrite (updateCurrentSlide_on_stacked w sm _ slide Hst Hk Hr).
      now rewrite (proj2 (Z.eqb_eq _ _) E).
    + rewrite (updateCurrentSlide_on_stacked w (set_currentSlide sm _) _ slide
                 Hst Hk Hr).
      simpl. now rewrite Z.eqb_refl.
Qed.

(** X4. On a stacked layout [updateCurrentSlide] is idempotent: run again
    on the same window, it changes nothing and writes nothing. *)
Theorem updateCurrentSlide_idempotent (w : Window) (sm sm' : SlideManager)
    (log : list effect) :
  stacked (slides sm) ->
  updateCurrentSlide w sm = (log, Some sm') ->
  updateCurrentSlide w sm' = ([], Some sm').
Proof. apply updateCurrentSlide_settles. Qed.

Lemma updateCurrentSlide_idempotent_witness :
  updateCurrentSlide (windowAt 150 100 300)
    (set_currentSlide (sampleManager threeSlides) 3)
  = ([], Some (set_currentSlide (sampleManager threeSlides) 3)).
Proof.
  apply (updateCurrentSlide_idempotent (windowAt 150 100 300)
           (sampleManager threeSlides) _ [SetTextContent 1%nat 3]).
  - simpl; lia.
  - reflexivity.
Defined.

(** ** What [updateCurrentSlide] can and cannot change *)

Lemma update_scan_invariant (pos : number) (nodes : list HTMLElement) :
  forall (index : nat) (sm : SlideManager) (log : list effect),
  exists (sm' : SlideManager) (added : list effect),
    forEach_from (updateCurrentSlide_callback pos) index nodes (sm, log)
    = (sm', log ++ added) /\
    slides sm' = slides sm /\
    scrollProgress sm' = scrollProgress sm /\
    currentSlideElement sm' = currentSlideElement sm /\
    (currentSlide sm' = currentSlide sm \/
     (Z.of_nat index < currentSlide sm'
      <= Z.of_nat index + Z.of_nat (List.length nodes))%Z) /\
    Forall (fun e => exists el v,
                e = SetTextContent el v /\
                currentSlideElement sm = Some el /\
                (Z.of_nat index < v
                 <= Z.of_nat index + Z.of_nat (List.length nodes))%Z) added.
Proof.
  induction nodes as [|s nodes IH]; intros index sm log.
  - exists sm, []. simpl. rewrite app_nil_r. repeat split; auto.
  - cbn [forEach_from]. unfold updateCurrentSlide_callback at 2.
    destruct (inSlide pos s && negb (Z.of_nat index + 1 =? currentSlide sm)%Z) eqn:E.
    + apply andb_true_iff in E. destruct E as [E1 E2]. rewrite E1, E2.
      destruct (IH (S index) (set_currentSlide sm (Z.of_nat index + 1))
                  (log ++ effects (updateSlideCounter
                                     (set_currentSlide sm (Z.of_nat index + 1)))))
        as (sm' & added & Hrun & Hs & Hp & He & Hc & Hlog).
      exists sm', (effects (updateSlideCounter
                              (set_currentSlide sm (Z.of_nat index + 1))) ++ added).
      rewrite Hrun, app_assoc.
      split; [reflexivity|].
      cbn [slides scrollProgress currentSlideElement currentSlide set_currentSlide]
        in Hs, Hp, He, Hc, Hlog.
      split; [exact Hs|]. split; [exact Hp|]. split; [exact He|].
      split; [destruct Hc; right; cbn [List.length]; lia|].
      apply Forall_app. split.
      * unfold updateSlideCounter.
        cbn [currentSlideElement currentSlide set_currentSlide].
        destruct (currentSlideElement sm) as [el|]; cbn [effects emit ret fst];
          constructor; [|constructor].
        exists el, (Z.of_nat index + 1)%Z. cbn [List.length].
        split; [reflexivity|]. split; [reflexivity|lia].
      * eapply Forall_impl; [|exact Hlog].
        intros e (el & v & -> & Hel & Hv). exists el, v. cbn [List.length].
        split; [reflexivity|]. split; [exact Hel|lia].
    + assert (Hsame : (if inSlide pos s
                       then if negb (Z.of_nat index + 1 =? currentSlide sm)%Z
                            then (set_currentSlide sm (Z.of_nat index + 1),
                                  log ++ effects (updateSlideCounter
                                            (set_currentSlide sm (Z.of_nat index + 1))))
                            else (sm, log)
                       else (sm, log)) = (sm, log)).
      { destruct (inSlide pos s); [|reflexivity].
        simpl in E. now rewrite E. }
      rewrite Hsame.
      destruct (IH (S index) sm log) as (sm' & added & Hrun & Hs & Hp & He & Hc & Hlog).
      exists sm', added. rewrite Hrun.
      split; [reflexivity|].
      split; [exact Hs|]. split; [exact Hp|]. split; [exact He|].
      split; [destruct Hc; [now left|right; cbn [List.length]; lia]|].
      eapply Forall_impl; [|exact Hlog].
      intros e (el & v & -> & Hel & Hv). exists el, v. cbn [List.length].
      split; [reflexivity|]. split; [exact Hel|lia].
Qed.

Lemma updateCurrentSlide_shape (w : Window) (sm : SlideManager) :
  exists (log : list effect) (sm' : SlideManager),
    updateCurrentSlide w sm = (log, Some sm') /\
    slides sm' = slides sm /\
    scrollProgress sm' = scrollProgress sm /\
    currentSlideElement sm' = currentSlideElement sm /\
    (currentSlide sm' = currentSlide sm \/
     (1 <= currentSlide sm' <= totalSlides sm)%Z) /\
    Forall (fun e => exists el v,
                e = SetTextContent el v /\
                currentSlideElement sm = Some el /\
                (1 <= v <= totalSlides sm)%Z) log.
Proof.
  destruct (update_scan_invariant (scrollPosition w) (slides sm) 0%nat sm [])
    as (sm' & added & Hrun & Hs & Hp & He & Hc & Hlog).
  unfold updateCurrentSlide, forEach. rewrite Hrun. simpl app.
  exists added, sm'. unfold totalSlides.
  split; [reflexivity|].
  split; [exact Hs|]. split; [exact Hp|]. split; [exact He|].
  split; [destruct Hc; [now left|right; lia]|].
  eapply Forall_impl; [|exact Hlog].
  intros e (el & v & -> & Hel & Hv). exists el, v.
  split; [reflexivity|]. split; [exact Hel|lia].
Qed.

(** X5. On any layout and any window [updateCurrentSlide] completes, keeps
    the slide list and the element handles, and leaves [currentSlide]
    either as it was or at a value between 1 and [N]; every effect it has
    is a write of such a value to the counter element. *)
Theorem updateCurrentSlide_frame (w : Window) (sm : SlideManager) :
  exists (log : list effect) (sm' : SlideManager),
    updateCurrentSlide w sm = (log, Some sm') /\
    slides sm' = slides sm /\
    scrollProgress sm' = scrollProgress sm /\
    currentSlideElement sm' = currentSlideElement sm /\
    (currentSlide sm' = currentSlide sm \/
     (1 <= currentSlide sm' <= totalSlides sm)%Z) /\
    Forall (fun e => exists el v,
                e = SetTextContent el v /\
                currentSlideElement sm = Some el /\
                (1 <= v <= totalSlides sm)%Z) log.
Proof. apply updateCurrentSlide_shape. Qed.

(** ** The ends of the progress bar *)






(** ** Buttons and keys *)

Lemma getCurrentSlideIndex_on_stacked (w : Window) (sm : SlideManager) (k : nat)
    (slide : HTMLElement) :
  stacked (slides sm) ->
  nth_error (slides sm) k = Some slide ->
  focusInRange w slide ->
  getCurrentSlideIndex w sm = Z.of_nat k.
Proof.
  intros Hst Hk Hin.
  destruct (nth_error_decompose _ _ _ _ Hk) as (before & after & Hsplit & Hlen).
  assert (Hmatch : inSlide (scrollPosition w) slide = true)
    by now apply focusInRange_iff.
  rewrite getCurrentSlideIndex_scan, Hsplit.
  rewrite scan_last_match.
  - now rewrite Hlen.
  - exact Hmatch.
  - apply stacked_later_miss_pos with (slide := slide); [|exact Hmatch].
    rewrite Hsplit in Hst. now apply stacked_app_inv in Hst.
Qed.

Lemma updateButtonStates_present (w : Window) (sm : SlideManager)
    (nav : SlideNavigation) (up down : Node) :
  upButton nav = Some up ->
  downButton nav = Some down ->
  updateButtonStates w sm nav
  = ([SetDisabled up (getCurrentSlideIndex w sm =? 0)%Z;
      SetDisabled down (getCurrentSlideIndex w sm =? totalSlides sm - 1)%Z], Some tt).
Proof.
  intros Hup Hdown. unfold updateButtonStates, setDisabled.
  now rewrite Hup, Hdown.
Qed.

(** X8. On a stacked layout with the focus point, as the code computes
    it, in slide [k], [updateButtonStates] disables the up button exactly when [k] is the
    first slide and the down button exactly when [k] is the last. *)
Theorem button_states_follow_slide (w : Window) (sm : SlideManager)
    (nav : SlideNavigation) (up down : Node) (k : nat) (slide : HTMLElement) :
  stacked (slides sm) ->
  nth_error (slides sm) k = Some slide ->
  focusInRange w slide ->
  upButton nav = Some up ->
  downButton nav = Some down ->
  updateButtonStates w sm nav
  = ([SetDisabled up (k =? 0)%nat;
      SetDisabled down (S k =? List.length (slides sm))%nat], Some tt).
Proof.
  intros Hst Hk Hin Hup Hdown.
  rewrite (updateButtonStates_present w sm nav up down Hup Hdown).
  rewrite (getCurrentSlideIndex_on_stacked w sm k slide Hst Hk Hin).
  unfold totalSlides. repeat f_equal.
  - destruct k; reflexivity.
  - destruct (Nat.eqb_spec (S k) (List.length (slides sm))) as [E|E].
    + apply Z.eqb_eq. lia.
    + apply Z.eqb_neq. lia.
Qed.

Lemma button_states_follow_slide_witness :
  updateButtonStates (windowAt 150 100 300) (sampleManager threeSlides)
    {| upButton := Some 2%nat; downButton := Some 3%nat |}
  = ([SetDisabled 2%nat false; SetDisabled 3%nat true], Some tt).
Proof.
  apply (button_states_follow_slide (windowAt 150 100 300) (sampleManager threeSlides)
           {| upButton := Some 2%nat; downButton := Some 3%nat |} 2%nat 3%nat
           2%nat (slideAt 200 100)).
  - simpl; lia.
  - reflexivity.
  - exists 200. split; [vm_compute; reflexivity|]. split; vm_compute; congruence.
  - reflexivity.
  - reflexivity.
Defined.

(** X9. On any layout, with both buttons present: with two slides or more
    the two buttons are never disabled together; with exactly one slide
    both are disabled; with no slide the up button is disabled and the
    down button is left enabled. *)
Theorem button_states_by_slide_count (w : Window) (sm : SlideManager)
    (nav : SlideNavigation) (up down : Node) :
  upButton nav = Some up ->
  downButton nav = Some down ->
  exists a b : bool,
    updateButtonStates w sm nav = ([SetDisabled up a; SetDisabled down b], Some tt) /\
    ((2 <= totalSlides sm)%Z -> a && b = false) /\
    (totalSlides sm = 1%Z -> a = true /\ b = true) /\
    (totalSlides sm = 0%Z -> a = true /\ b = false).
Proof.
  intros Hup Hdown.
  rewrite (updateButtonStates_present w sm nav up down Hup Hdown).
  destruct (getCurrentSlideIndex_range w sm) as [Hlo Hhi].
  eexists _, _. split; [reflexivity|].
  split; [|split]; intro HN.
  - destruct (Z.eqb_spec (getCurrentSlideIndex w sm) 0) as [E|E]; [|reflexivity].
    simpl. apply Z.eqb_neq. lia.
  - split; apply Z.eqb_eq; lia.
  - split; [apply Z.eqb_eq|apply Z.eqb_neq]; lia.
Qed.

Lemma button_states_by_slide_count_witness :
  updateButtonStates (windowAt 0 100 100) (sampleManager [])
    {| upButton := Some 2%nat; downButton := Some 3%nat |}
  = ([SetDisabled 2%nat true; SetDisabled 3%nat false], Some tt).
Proof.
  destruct (button_states_by_slide_count (windowAt 0 100 100) (sampleManager [])
              {| upButton := Some 2%nat; downButton := Some 3%nat |} 2%nat 3%nat
              eq_refl eq_refl) as (a & b & Hrun & _ & _ & H0).
  destruct (H0 eq_refl) as [-> ->]. exact Hrun.
Defined.

Lemma goToSlide_cases (sm : SlideManager) (i : Z) :
  goToSlide sm i = ([], Some tt) \/
  ((0 <= i < totalSlides sm)%Z /\
   goToSlide sm i = ([ScrollIntoView i smoothStart], Some tt)).
Proof.
  destruct (Z_lt_ge_dec i 0) as [Hneg|Hpos].
  - left. apply goToSlide_out_of_range. now left.
  - destruct (Z_lt_ge_dec i (totalSlides sm)) as [Hin|Hout].
    + right. split; [lia|]. apply goToSlide_in_range. lia.
    + left. apply goToSlide_out_of_range. right. lia.
Qed.

(** X10. On a stacked layout with the focus point, as the code computes
    it, in slide [k], the down
    button and the keys ['ArrowDown'] and ['PageDown'] all request slide
    [min(k + 1, N - 1)], the up button and the keys ['ArrowUp'] and
    ['PageUp'] all request slide [max(k - 1, 0)]; at either end the request
    is for the current slide itself.  The keys call [preventDefault]
    first. *)
Theorem buttons_and_keys_step_one_slide (w : Window) (sm : SlideManager) (k : nat)
    (slide : HTMLElement) :
  stacked (slides sm) ->
  nth_error (slides sm) k = Some slide ->
  focusInRange w slide ->
  let down := ScrollIntoView (Z.min (Z.of_nat k + 1) (totalSlides sm - 1)) smoothStart in
  let up := ScrollIntoView (Z.max (Z.of_nat k - 1) 0) smoothStart in
  navigateDown w sm = ([down], Some tt) /\
  handleKeydown w sm "ArrowDown" = ([PreventDefault; down], Some tt) /\
  handleKeydown w sm "PageDown" = ([PreventDefault; down], Some tt) /\
  navigateUp w sm = ([up], Some tt) /\
  handleKeydown w sm "ArrowUp" = ([PreventDefault; up], Some tt) /\
  handleKeydown w sm "PageUp" = ([PreventDefault; up], Some tt).
Proof.
  intros Hst Hk Hin down up.
  pose proof (getCurrentSlideIndex_on_stacked w sm k slide Hst Hk Hin) as Hidx.
  assert (HN : (Z.of_nat k < totalSlides sm)%Z).
  { unfold totalSlides. apply Nat2Z.inj_lt. apply nth_error_Some. congruence. }
  assert (Hdown : goToSlide sm (Z.min (Z.of_nat k + 1) (totalSlides sm - 1))
                  = ([down], Some tt)) by (apply goToSlide_in_range; lia).
  assert (Hup : goToSlide sm (Z.max (Z.of_nat k - 1) 0) = ([up], Some tt))
    by (apply goToSlide_in_range; lia).
  assert (Hnd : navigateDown w sm = ([down], Some tt)).
  { unfold navigateDown. rewrite Hidx. exact Hdown. }
  assert (Hnu : navigateUp w sm = ([up], Some tt)).
  { unfold navigateUp. rewrite Hidx. exact Hup. }
  split; [exact Hnd|].
  split; [change (handleKeydown w sm "ArrowDown")
            with (emit PreventDefault ;; navigateDown w sm);
          now rewrite bind_emit, Hnd|].
  split; [change (handleKeydown w sm "PageDown")
            with (emit PreventDefault ;; navigateDown w sm);
          now rewrite bind_emit, Hnd|].
  split; [exact Hnu|].
  split; [change (handleKeydown w sm "ArrowUp")
            with (emit PreventDefault ;; navigateUp w sm);
          now rewrite bind_emit, Hnu|].
  change (handleKeydown w sm "PageUp") with (emit PreventDefault ;; navigateUp w sm).
  now rewrite bind_emit, Hnu.
Qed.

Lemma buttons_and_keys_step_one_slide_witness :
  navigateDown (windowAt 150 100 300) (sampleManager threeSlides)
  = ([ScrollIntoView 2 smoothStart], Some tt) /\
  handleKeydown (windowAt 150 100 300) (sampleManager threeSlides) "PageUp"
  = ([PreventDefault; ScrollIntoView 1 smoothStart], Some tt).
Proof.
  pose proof (buttons_and_keys_step_one_slide (windowAt 150 100 300)
                (sampleManager threeSlides) 2%nat (slideAt 200 100)) as H.
  destruct H as (Hd & _ & _ & _ & _ & Hu).
  - simpl; lia.
  - reflexivity.
  - exists 200. split; [vm_compute; reflexivity|]. split; vm_compute; congruence.
  - split; [exact Hd|exact Hu].
Defined.

Lemma handleKeydown_shape (w : Window) (sm : SlideManager) (key : string) :
  exists log : list effect,
    handleKeydown w sm key = (log, Some tt) /\
    (~ In key navigationKeys -> log = []) /\
    (In key navigationKeys ->
     log = [PreventDefault] \/
     exists i : Z, (0 <= i < totalSlides sm)%Z /\
                   log = [PreventDefault; ScrollIntoView i smoothStart]).
Proof.
  assert (Hnav : forall i : Z,
             exists log : list effect,
               (emit PreventDefault ;; goToSlide sm i) = (log, Some tt) /\
               (log = [PreventDefault] \/
                exists j : Z, (0 <= j < totalSlides sm)%Z /\
                              log = [PreventDefault; ScrollIntoView j smoothStart])).
  { intro i. rewrite bind_emit.
    destruct (goToSlide_cases sm i) as [E | [Hi E]]; rewrite E; simpl.
    - exists [PreventDefault]. split; [reflexivity|now left].
    - eexists. split; [reflexivity|]. right. now exists i. }
  destruct (in_dec string_dec key navigationKeys) as [Hin|Hout].
  - assert (Hrun : exists log : list effect,
               handleKeydown w sm key = (log, Some tt) /\
               (log = [PreventDefault] \/
                exists j : Z, (0 <= j < totalSlides sm)%Z /\
                              log = [PreventDefault; ScrollIntoView j smoothStart])).
    { simpl in Hin.
      destruct Hin as [<-|[<-|[<-|[<-|[<-|[<-|[]]]]]]];
        cbv beta iota zeta delta [handleKeydown String.eqb Ascii.eqb Bool.eqb orb andb];
        apply Hnav. }
    destruct Hrun as (log & Hrun & Hlog).
    exists log. split; [exact Hrun|]. split; [contradiction|]. intros _. exact Hlog.
  - exists []. split; [|split; [reflexivity|contradiction]].
    unfold navigationKeys in Hout. simpl in Hout.
    unfold handleKeydown.
    repeat match goal with
           | |- context [String.eqb key ?s] =>
               replace (String.eqb key s) with false
                 by (symmetry; apply String.eqb_neq; intro; subst; tauto)
           end.
    reflexivity.
Qed.

(** X11. For every key [handleKeydown] completes.  A key outside the six
    navigation keys has no effect at all, not even [preventDefault]; a
    navigation key calls [preventDefault] and then requests at most one
    slide, whose index is in [[0, N)]. *)
Theorem handleKeydown_any_key (w : Window) (sm : SlideManager) (key : string) :
  exists log : list effect,
    handleKeydown w sm key = (log, Some tt) /\
    (~ In key navigationKeys -> log = []) /\
    (In key navigationKeys ->
     log = [PreventDefault] \/
     exists i : Z, (0 <= i < totalSlides sm)%Z /\
                   log = [PreventDefault; ScrollIntoView i smoothStart]).
Proof. apply handleKeydown_shape. Qed.

Lemma handleKeydown_any_key_witness :
  handleKeydown (windowAt 150 100 300) (sampleManager threeSlides) "Enter"
  = ([], Some tt).
Proof.
  destruct (handleKeydown_any_key (windowAt 150 100 300) (sampleManager threeSlides)
              "Enter") as (log & Hrun & Hnone & _).
  rewrite Hrun. f_equal. apply Hnone.
  simpl. intros [H|[H|[H|[H|[H|[H|[]]]]]]]; discriminate.
Defined.

(** ** The header *)

Lemma handleScroll_present (w : Window) (hm : HeaderManager) (el : Node) :
  header hm = Some el ->
  exists bg sh : string,
    handleScroll w hm
    = ([SetBackground el bg; SetBoxShadow el sh;
        SetTransform el (revealFor (lastScroll hm) (pageYOffset w))],
       Some {| header := Some el; lastScroll := pageYOffset w |}) /\
    (bg = "rgba(255, 255, 255, 0.98)"%string <-> 100 < pageYOffset w) /\
    (sh = "none"%string <-> pageYOffset w <= 100).
Proof.
  intro Hel. unfold handleScroll, revealFor, gt. rewrite Hel. simpl lt.
  assert (Hrev : forall tail : list headerStyle,
             tail ++ (if Qlt_bool (lastScroll hm) (pageYOffset w)
                         && Qlt_bool 200 (pageYOffset w)
                      then [SetTransform el "translateY(-100%)"]
                      else [SetTransform el "translateY(0)"])
             = tail ++ [SetTransform el
                          (if Qlt_bool (lastScroll hm) (pageYOffset w)
                              && Qlt_bool 200 (pageYOffset w)
                           then headerHidden else headerShown)]).
  { intro tail. now destruct (_ && _). }
  rewrite Hrev. clear Hrev.
  destruct (Qlt_bool 100 (pageYOffset w)) eqn:E.
  - eexists _, _. split; [reflexivity|].
    apply Qlt_bool_iff in E. split; split; intro H; try reflexivity; try exact E.
    + discriminate.
    + exfalso. apply (Qlt_not_le _ _ E H).
  - eexists _, _. split; [reflexivity|].
    apply Qlt_bool_false_iff in E. split; split; intro H; try reflexivity; try exact E.
    + discriminate.
    + exfalso. apply (Qlt_not_le _ _ H E).
Qed.

(** X12. With a header, [handleScroll] writes the header's background,
    box shadow and transform, in that order, and records the offset in
    [lastScroll].  The header is hidden exactly when the offset is above
    both the last recorded offset and 200; a hidden header always has the
    opaque background and the shadow. *)
Theorem handleScroll_states (w : Window) (hm : HeaderManager) (el : Node) :
  header hm = Some el ->
  exists bg sh tr : string,
    handleScroll w hm
    = ([SetBackground el bg; SetBoxShadow el sh; SetTransform el tr],
       Some {| header := Some el; lastScroll := pageYOffset w |}) /\
    (tr = headerHidden \/ tr = headerShown) /\
    (tr = headerHidden <-> lastScroll hm < pageYOffset w /\ 200 < pageYOffset w) /\
    (tr = headerHidden ->
     bg = "rgba(255, 255, 255, 0.98)"%string /\ sh <> "none"%string).
Proof.
  intro Hel.
  destruct (handleScroll_present w hm el Hel) as (bg & sh & Hrun & Hbg & Hsh).
  exists bg, sh, (revealFor (lastScroll hm) (pageYOffset w)).
  split; [exact Hrun|].
  assert (Hiff : revealFor (lastScroll hm) (pageYOffset w) = headerHidden <->
                 lastScroll hm < pageYOffset w /\ 200 < pageYOffset w).
  { unfold revealFor.
    destruct (Qlt_bool (lastScroll hm) (pageYOffset w) && Qlt_bool 200 (pageYOffset w))
      eqn:E.
    - apply andb_true_iff in E. destruct E as [E1 E2].
      apply Qlt_bool_iff in E1. apply Qlt_bool_iff in E2. tauto.
    - split; [discriminate|]. intros [H1 H2].
      apply Qlt_bool_iff in H1. apply Qlt_bool_iff in H2.
      rewrite H1, H2 in E. discriminate. }
  split.
  { unfold revealFor. destruct (_ && _); [now left|now right]. }
  split; [exact Hiff|].
  intro Hh. apply Hiff in Hh. destruct Hh as [_ H200].
  assert (H100 : 100 < pageYOffset w) by lra.
  split; [now apply Hbg|].
  intro Hnone. apply Hsh in Hnone. lra.
Qed.

Lemma handleScroll_states_witness :
  exists bg sh : string,
    handleScroll (windowAt 250 100 900) {| header := Some 4%nat; lastScroll := 50 |}
    = ([SetBackground 4%nat bg; SetBoxShadow 4%nat sh; SetTransform 4%nat headerHidden],
       Some {| header := Some 4%nat; lastScroll := 250 |}).
Proof.
  destruct (handleScroll_states (windowAt 250 100 900)
              {| header := Some 4%nat; lastScroll := 50 |} 4%nat eq_refl)
    as (bg & sh & tr & Hrun & _ & Hiff & _).
  exists bg, sh. rewrite Hrun.
  replace tr with headerHidden; [reflexivity|].
  symmetry. apply Hiff. split; reflexivity.
Defined.

(** ** Sessions *)

Lemma run_app (evs1 evs2 : list Event) :
  forall s : Session,
    after (run (evs1 ++ evs2) s) = after (run evs2 (after (run evs1 s))) /\
    outputs (run (evs1 ++ evs2) s)
    = outputs (run evs1 s) ++ outputs (run evs2 (after (run evs1 s))) /\
    uncaught (run (evs1 ++ evs2) s)
    = (uncaught (run evs1 s) + uncaught (run evs2 (after (run evs1 s))))%nat.
Proof.
  induction evs1 as [|ev evs1 IH]; intro s; simpl.
  - auto.
  - destruct (IH (after (deliver ev s))) as (Ha & Ho & Hu).
    rewrite Ha, Ho, Hu, app_assoc. repeat split. lia.
Qed.

Lemma headerOutputs_app (l1 l2 : list output) :
  headerOutputs (l1 ++ l2) = headerOutputs l1 ++ headerOutputs l2.
Proof. unfold headerOutputs. apply flat_map_app. Qed.

Lemma slideOutputs_app (l1 l2 : list output) :
  slideOutputs (l1 ++ l2) = slideOutputs l1 ++ slideOutputs l2.
Proof. unfold slideOutputs. apply flat_map_app. Qed.

Lemma headerOutputs_map_header (log : list headerStyle) :
  headerOutputs (map HeaderOutput log) = log /\
  slideOutputs (map HeaderOutput log) = [].
Proof.
  induction log as [|h log [IH1 IH2]]; simpl; [auto|].
  split; [now f_equal|exact IH2].
Qed.

Lemma outputs_map_slide (log : list effect) :
  slideOutputs (map SlideOutput log) = log /\
  headerOutputs (map SlideOutput log) = [].
Proof.
  induction log as [|e log [IH1 IH2]]; simpl; [auto|].
  split; [now f_equal|exact IH2].
Qed.

(** A scroll notification with a header present. *)
Lemma deliver_scroll_header (w : Window) (s : Session) (el : Node) :
  header (headerManager s) = Some el ->
  exists bg sh : string,
    deliver (ScrollEvent w) s
    = {| after := {| page := dispatchScroll w (page s);
                     headerManager := {| header := Some el;
                                         lastScroll := pageYOffset w |} |};
         outputs := map HeaderOutput
                      [SetBackground el bg; SetBoxShadow el sh;
                       SetTransform el
                         (revealFor (lastScroll (headerManager s)) (pageYOffset w))];
         uncaught := 0 |}.
Proof.
  intro Hel.
  destruct (handleScroll_present w (headerManager s) el Hel) as (bg & sh & Hrun & _).
  exists bg, sh. unfold deliver. now rewrite Hel, Hrun.
Qed.

Lemma deliver_scroll_no_header (w : Window) (s : Session) :
  header (headerManager s) = None ->
  deliver (ScrollEvent w) s
  = {| after := withPage s (dispatchScroll w (page s)); outputs := []; uncaught := 0 |}.
Proof. intro Hel. unfold deliver. now rewrite Hel. Qed.

(** X13. Scroll notifications alone restyle the header at once, three
    writes per notification, and do nothing else: no progress, counter or
    button write happens and the manager is untouched until a frame runs.
    Without a header they write nothing, and no listener throws. *)
Theorem scroll_restyles_header_at_once (ws : list Window) (s : Session) :
  slideOutputs (outputs (run (scrollEvents ws) s)) = [] /\
  manager (page (after (run (scrollEvents ws) s))) = manager (page s) /\
  uncaught (run (scrollEvents ws) s) = 0%nat /\
  List.length (headerOutputs (outputs (run (scrollEvents ws) s)))
  = match header (headerManager s) with
    | Some _ => (3 * List.length ws)%nat
    | None => 0%nat
    end.
Proof.
  revert s. induction ws as [|w ws IH]; intro s.
  - simpl. destruct (header (headerManager s)); auto.
  - cbn [scrollEvents map run after outputs uncaught].
    fold (scrollEvents ws).
    destruct (header (headerManager s)) as [el|] eqn:Hel.
    + destruct (deliver_scroll_header w s el Hel) as (bg & sh & Hd).
      rewrite Hd. cbn [after outputs uncaught].
      match goal with
      | |- context [run (scrollEvents ws) ?s1] =>
          destruct (IH s1) as (I1 & I2 & I3 & I4)
      end.
      cbn [headerManager header page] in I2, I4.
      rewrite slideOutputs_app, headerOutputs_app, I1, I2, I3, length_app, I4.
      destruct (headerOutputs_map_header
                  [SetBackground el bg; SetBoxShadow el sh;
                   SetTransform el (revealFor (lastScroll (headerManager s))
                                      (pageYOffset w))]) as [H1 H2].
      rewrite H1, H2. simpl. repeat split. lia.
    + rewrite (deliver_scroll_no_header w s Hel). cbn [after outputs uncaught app Nat.add].
      destruct (IH (withPage s (dispatchScroll w (page s)))) as (I1 & I2 & I3 & I4).
      cbn [withPage headerManager page] in I2, I4. rewrite Hel in I4.
      rewrite I1, I2, I3, I4. auto.
Qed.

(** X14. After two or more scroll notifications the header's last write
    and its recorded offset depend on the last two offsets only: the
    transform is hidden exactly when the last offset is above the one
    before and above 200.  In particular a notification that repeats the
    previous offset shows the header. *)
Theorem header_follows_last_two_offsets
    (ws : list Window) (previous current : Window) (s : Session) (el : Node) :
  header (headerManager s) = Some el ->
  lastScroll (headerManager (after (run (scrollEvents (ws ++ [previous; current])) s)))
  = pageYOffset current /\
  last (headerOutputs (outputs (run (scrollEvents (ws ++ [previous; current])) s)))
       (SetTransform el headerShown)
  = SetTransform el (revealFor (pageYOffset previous) (pageYOffset current)).
Proof.
  intro Hel. unfold scrollEvents. rewrite map_app.
  destruct (run_app (map ScrollEvent ws) (map ScrollEvent [previous; current]) s)
    as (Ha & Ho & _).
  rewrite Ha, Ho. clear Ha Ho.
  assert (Hkeep : forall (l : list Window) (t : Session),
             header (headerManager t) = Some el ->
             header (headerManager (after (run (map ScrollEvent l) t))) = Some el).
  { induction l as [|x l IHl]; intros t Ht; [exact Ht|].
    cbn [map run after]. apply IHl.
    destruct (deliver_scroll_header x t el Ht) as (bg & sh & Hd). now rewrite Hd. }
  set (s1 := after (run (map ScrollEvent ws) s)).
  assert (H1 : header (headerManager s1) = Some el) by (apply Hkeep; exact Hel).
  cbn [map run after outputs].
  destruct (deliver_scroll_header previous s1 el H1) as (bg1 & sh1 & Hd1).
  rewrite Hd1. cbn [after outputs].
  match goal with
  | |- context [deliver (ScrollEvent current) ?s2] =>
      destruct (deliver_scroll_header current s2 el eq_refl) as (bg2 & sh2 & Hd2)
  end.
  rewrite Hd2. cbn [after outputs headerManager lastScroll].
  split; [reflexivity|].
  rewrite !headerOutputs_app, app_nil_r.
  rewrite !(proj1 (headerOutputs_map_header _)).
  match goal with
  | |- last (?a ++ ?b ++ [?x; ?y; ?z]) _ = _ =>
      change (a ++ b ++ [x; y; z]) with (a ++ b ++ [x; y] ++ [z])
  end.
  rewrite !app_assoc. apply last_last.
Qed.

Lemma header_follows_last_two_offsets_witness :
  last (headerOutputs
          (outputs (run (scrollEvents [windowAt 250 100 900; windowAt 250 100 900])
                      (sampleSession threeSlides))))
       (SetTransform 4%nat headerShown)
  = SetTransform 4%nat headerShown.
Proof.
  exact (proj2 (header_follows_last_two_offsets [] (windowAt 250 100 900)
                  (windowAt 250 100 900) (sampleSession threeSlides) 4%nat eq_refl)).
Defined.

(** ** What a frame can do *)

Lemma updateButtonStates_no_request (w : Window) (sm : SlideManager)
    (nav : SlideNavigation) :
  Forall noRequest (effects (updateButtonStates w sm nav)).
Proof.
  unfold updateButtonStates, setDisabled.
  destruct (upButton nav), (downButton nav); simpl; repeat constructor.
Qed.

Lemma runCallback_shape (cb : FrameRequestCallback) (p : Page) (log : list effect) :
  exists (p' : Page) (added : list effect),
    runCallback cb (p, log) = (p', log ++ added) /\
    window p' = window p /\
    navigation p' = navigation p /\
    animationFrameCallbacks p' = animationFrameCallbacks p /\
    slides (manager p') = slides (manager p) /\
    (currentSlide (manager p') = currentSlide (manager p) \/
     (1 <= currentSlide (manager p') <= totalSlides (manager p))%Z) /\
    Forall noRequest added.
Proof.
  destruct cb; unfold runCallback.
  - destruct (updateCurrentSlide_shape (window p) (manager p))
      as (ulog & sm' & Hrun & Hs & _ & _ & Hc & Hlog).
    unfold bind. rewrite Hrun.
    assert (Hbar : exists es, updateScrollProgress (window p) (manager p) = (es, Some tt)
                              /\ Forall noRequest es).
    { unfold updateScrollProgress. destruct (scrollProgress (manager p)).
      - eexists. split; [reflexivity|]. repeat constructor.
      - exists []. split; [reflexivity|constructor]. }
    destruct Hbar as (es & Hes & Hnr). rewrite Hes.
    eexists _, (es ++ ulog). split; [reflexivity|]. simpl.
    repeat split; auto.
    apply Forall_app. split; [exact Hnr|].
    eapply Forall_impl; [|exact Hlog]. intros e (el & v & -> & _). reflexivity.
  - exists p, (effects (updateButtonStates (window p) (manager p) (navigation p))).
    repeat split; auto. apply updateButtonStates_no_request.
Qed.

Lemma run_callbacks_shape (callbacks : list FrameRequestCallback) :
  forall (p : Page) (log : list effect),
  exists (p' : Page) (added : list effect),
    fold_left (fun st cb => runCallback cb st) callbacks (p, log) = (p', log ++ added) /\
    window p' = window p /\
    navigation p' = navigation p /\
    animationFrameCallbacks p' = animationFrameCallbacks p /\
    slides (manager p') = slides (manager p) /\
    (currentSlide (manager p') = currentSlide (manager p) \/
     (1 <= currentSlide (manager p') <= totalSlides (manager p))%Z) /\
    Forall noRequest added.
Proof.
  induction callbacks as [|cb callbacks IH]; intros p log.
  - exists p, []. simpl. rewrite app_nil_r. repeat split; auto.
  - cbn [fold_left].
    destruct (runCallback_shape cb p log)
      as (p1 & added1 & Hrun1 & Hw1 & Hn1 & Hq1 & Hs1 & Hc1 & Hl1).
    rewrite Hrun1.
    destruct (IH p1 (log ++ added1))
      as (p2 & added2 & Hrun2 & Hw2 & Hn2 & Hq2 & Hs2 & Hc2 & Hl2).
    exists p2, (added1 ++ added2). rewrite Hrun2, app_assoc.
    split; [reflexivity|].
    split; [congruence|]. split; [congruence|]. split; [congruence|].
    split; [congruence|].
    split; [|now apply Forall_app].
    unfold totalSlides in *. rewrite Hs1 in Hc2.
    destruct Hc2 as [Hc2|Hc2]; [|now right].
    rewrite Hc2. exact Hc1.
Qed.

Lemma animationFrame_shape (p : Page) :
  exists (p' : Page) (log : list effect),
    animationFrame p = (p', log) /\
    window p' = window p /\
    navigation p' = navigation p /\
    animationFrameCallbacks p' = [] /\
    slides (manager p') = slides (manager p) /\
    (currentSlide (manager p') = currentSlide (manager p) \/
     (1 <= currentSlide (manager p') <= totalSlides (manager p))%Z) /\
    Forall noRequest log.
Proof.
  unfold animationFrame.
  match goal with
  | |- context [fold_left _ ?cbs (?p0, [])] =>
      destruct (run_callbacks_shape cbs p0 []) as (p' & added & Hrun & H)
  end.
  exists p', added. rewrite Hrun. split; [reflexivity|exact H].
Qed.

Lemma callbackBody_completes (cb : FrameRequestCallback) (p : Page) :
  (cb = SlideNavigationFrame -> buttonsListen (navigation p) = true) ->
  completes (callbackBody cb p) = true.
Proof.
  intro Hnav. destruct cb; unfold callbackBody.
  - destruct (updateCurrentSlide_shape (window p) (manager p))
      as (ulog & sm' & Hrun & _).
    unfold bind. rewrite Hrun.
    unfold updateScrollProgress. destruct (scrollProgress (manager p)); reflexivity.
  - specialize (Hnav eq_refl). unfold buttonsListen in Hnav.
    unfold updateButtonStates, setDisabled.
    destruct (upButton (navigation p)); [|discriminate].
    destruct (downButton (navigation p)); [|discriminate].
    reflexivity.
Qed.

Lemma uncaughtIn_sound (callbacks : list FrameRequestCallback) :
  forall p : Page,
    (In SlideNavigationFrame callbacks -> buttonsListen (navigation p) = true) ->
    uncaughtIn callbacks p = 0%nat.
Proof.
  induction callbacks as [|cb callbacks IH]; intros p Hq; [reflexivity|].
  cbn [uncaughtIn].
  rewrite callbackBody_completes by (intros ->; apply Hq; now left).
  destruct (runCallback_shape cb p []) as (p1 & added & Hrun & _ & Hn & _).
  rewrite Hrun. simpl fst. rewrite IH; [reflexivity|].
  intro Hin. rewrite Hn. apply Hq. now right.
Qed.

(** X15. A frame empties the queue and issues no scroll request; a
    second frame right after it, with no scroll notification in between,
    writes nothing and leaves the manager as it is. *)
Theorem frame_drains_queue (s : Session) :
  animationFrameCallbacks (page (after (deliver AnimationFrameEvent s))) = [] /\
  Forall (fun o => exists e, o = SlideOutput e /\ noRequest e)
         (outputs (deliver AnimationFrameEvent s)) /\
  outputs (deliver AnimationFrameEvent (after (deliver AnimationFrameEvent s))) = [] /\
  manager (page (after (deliver AnimationFrameEvent
                          (after (deliver AnimationFrameEvent s)))))
  = manager (page (after (deliver AnimationFrameEvent s))).
Proof.
  cbn [deliver].
  destruct (animationFrame_shape (page s)) as (p' & log & Hrun & _ & _ & Hq & _ & _ & Hl).
  rewrite Hrun. cbn [after outputs withPage page].
  split; [exact Hq|].
  split.
  { clear Hrun. induction Hl as [|e log He _ IH]; simpl; constructor; [|exact IH].
    now exists e. }
  unfold animationFrame. rewrite Hq. simpl. auto.
Qed.

(** ** Whole sessions *)

Lemma requestsWithin_no_request (lo hi : Z) (log : list effect) :
  Forall noRequest log -> requestsWithin lo hi log.
Proof.
  intro H. unfold requestsWithin. eapply Forall_impl; [|exact H].
  intros e He. destruct e; try exact I. discriminate.
Qed.

Lemma goToSlide_requests (sm : SlideManager) (i : Z) :
  completes (goToSlide sm i) = true /\
  requestsWithin 0 (totalSlides sm - 1) (effects (goToSlide sm i)).
Proof.
  destruct (goToSlide_cases sm i) as [E | [Hi E]]; rewrite E; simpl.
  - split; [reflexivity|constructor].
  - split; [reflexivity|]. repeat constructor; lia.
Qed.

Lemma handleKeydown_requests (w : Window) (sm : SlideManager) (key : string) :
  completes (handleKeydown w sm key) = true /\
  requestsWithin 0 (totalSlides sm - 1) (effects (handleKeydown w sm key)).
Proof.
  destruct (handleKeydown_shape w sm key) as (log & Hrun & Hout & Hin).
  rewrite Hrun. split; [reflexivity|]. simpl.
  destruct (in_dec string_dec key navigationKeys) as [H|H].
  - destruct (Hin H) as [-> | (i & Hi & ->)]; repeat constructor; lia.
  - rewrite (Hout H). constructor.
Qed.

Lemma queueSound_dispatchScroll (w : Window) (p : Page) :
  queueSound p -> queueSound (dispatchScroll w p).
Proof.
  unfold queueSound, dispatchScroll, scrollListeners, buttonsListen. simpl.
  intros H Hin. apply in_app_or in Hin. destruct Hin as [Hin|Hin]; [now apply H|].
  destruct (upButton (navigation p)), (downButton (navigation p));
    simpl in Hin; try reflexivity;
    repeat (destruct Hin as [Hin|Hin]; try discriminate); contradiction.
Qed.

(** What one event can change. *)
Lemma deliver_shape (ev : Event) (s : Session) :
  slides (manager (page (after (deliver ev s)))) = slides (manager (page s)) /\
  navigation (page (after (deliver ev s))) = navigation (page s) /\
  header (headerManager (after (deliver ev s))) = header (headerManager s) /\
  (currentSlide (manager (page (after (deliver ev s))))
   = currentSlide (manager (page s)) \/
   (1 <= currentSlide (manager (page (after (deliver ev s))))
    <= totalSlides (manager (page s)))%Z) /\
  requestsWithin 0 (totalSlides (manager (page s)) - 1)
    (slideOutputs (outputs (deliver ev s))) /\
  (queueSound (page s) ->
   queueSound (page (after (deliver ev s))) /\ uncaught (deliver ev s) = 0%nat).
Proof.
  destruct ev as [w | | | | key].
  - (* scroll *)
    destruct (header (headerManager s)) as [el|] eqn:Hel.
    + destruct (deliver_scroll_header w s el Hel) as (bg & sh & Hd). rewrite Hd.
      cbn [after outputs uncaught page headerManager header dispatchScroll
             manager navigation animationFrameCallbacks].
      rewrite (proj2 (headerOutputs_map_header _)).
      repeat split; auto; try constructor.
      now apply queueSound_dispatchScroll.
    + rewrite (deliver_scroll_no_header w s Hel).
      cbn [after outputs uncaught page headerManager header dispatchScroll withPage
             manager navigation animationFrameCallbacks slideOutputs flat_map].
      repeat split; auto; try constructor.
      now apply queueSound_dispatchScroll.
  - (* frame *)
    cbn [deliver].
    destruct (animationFrame_shape (page s))
      as (p' & log & Hrun & Hw & Hn & Hq & Hs & Hc & Hl).
    rewrite Hrun. cbn [after outputs uncaught withPage page headerManager].
    rewrite (proj1 (outputs_map_slide log)).
    split; [exact Hs|]. split; [exact Hn|]. split; [reflexivity|].
    split; [exact Hc|].
    split; [now apply requestsWithin_no_request|].
    intro Hsound. split.
    + unfold queueSound. rewrite Hq. intros [].
    + apply uncaughtIn_sound. exact Hsound.
  - (* click on the up button *)
    cbn [deliver]. destruct (buttonsListen (navigation (page s)));
      cbn [after outputs uncaught]; [|repeat split; auto; constructor].
    rewrite (proj1 (outputs_map_slide _)).
    destruct (goToSlide_requests (manager (page s))
                (Z.max (getCurrentSlideIndex (window (page s)) (manager (page s)) - 1) 0))
      as [Hc Hr].
    split; [reflexivity|]. split; [reflexivity|]. split; [reflexivity|].
    split; [now left|]. split; [exact Hr|].
    intro Hsound. split; [exact Hsound|]. unfold uncaughtOf, navigateUp. now rewrite Hc.
  - (* click on the down button *)
    cbn [deliver]. destruct (buttonsListen (navigation (page s)));
      cbn [after outputs uncaught]; [|repeat split; auto; constructor].
    rewrite (proj1 (outputs_map_slide _)).
    destruct (goToSlide_requests (manager (page s))
                (Z.min (getCurrentSlideIndex (window (page s)) (manager (page s)) + 1)
                   (totalSlides (manager (page s)) - 1)))
      as [Hc Hr].
    split; [reflexivity|]. split; [reflexivity|]. split; [reflexivity|].
    split; [now left|]. split; [exact Hr|].
    intro Hsound. split; [exact Hsound|]. unfold uncaughtOf, navigateDown.
    fold (totalSlides (manager (page s))). now rewrite Hc.
  - (* key *)
    cbn [deliver after outputs uncaught].
    rewrite (proj1 (outputs_map_slide _)).
    destruct (handleKeydown_requests (window (page s)) (manager (page s)) key)
      as [Hc Hr].
    split; [reflexivity|]. split; [reflexivity|]. split; [reflexivity|].
    split; [now left|]. split; [exact Hr|].
    intro Hsound. split; [exact Hsound|]. unfold uncaughtOf. now rewrite Hc.
Qed.

Lemma run_shape (events : list Event) :
  forall s : Session,
    slides (manager (page (after (run events s)))) = slides (manager (page s)) /\
    navigation (page (after (run events s))) = navigation (page s) /\
    header (headerManager (after (run events s))) = header (headerManager s) /\
    (currentSlide (manager (page (after (run events s))))
     = currentSlide (manager (page s)) \/
     (1 <= currentSlide (manager (page (after (run events s))))
      <= totalSlides (manager (page s)))%Z) /\
    requestsWithin 0 (totalSlides (manager (page s)) - 1)
      (slideOutputs (outputs (run events s))) /\
    (queueSound (page s) ->
     queueSound (page (after (run events s))) /\ uncaught (run events s) = 0%nat).
Proof.
  induction events as [|ev events IH]; intro s.
  - simpl. repeat split; auto. constructor.
  - cbn [run after outputs uncaught].
    destruct (deliver_shape ev s) as (Ds & Dn & Dh & Dc & Dr & Dq).
    destruct (IH (after (deliver ev s))) as (Is & In_ & Ih & Ic & Ir & Iq).
    unfold totalSlides in *. rewrite Ds in Ic, Ir.
    split; [congruence|]. split; [congruence|]. split; [congruence|].
    split.
    { destruct Ic as [Ic|Ic]; [|now right]. rewrite Ic. exact Dc. }
    split.
    { rewrite slideOutputs_app. unfold requestsWithin in *. now apply Forall_app. }
    intro Hsound. destruct (Dq Hsound) as [Dq1 Dq2].
    destruct (Iq Dq1) as [Iq1 Iq2]. split; [exact Iq1|]. now rewrite Dq2, Iq2.
Qed.

(** X16. Whatever events arrive, in whatever order, every scroll request
    the page issues names a slide index in [[0, N - 1]], and the slide list
    is never changed. *)
Theorem session_requests_in_range (events : list Event) (s : Session) :
  slides (manager (page (after (run events s)))) = slides (manager (page s)) /\
  requestsWithin 0 (totalSlides (manager (page s)) - 1)
    (slideOutputs (outputs (run events s))).
Proof.
  destruct (run_shape events s) as (Hs & _ & _ & _ & Hr & _). now split.
Qed.

(** X17. [currentSlide] stays between 1 and [max(N, 1)] throughout a
    session that starts there. *)
Theorem session_currentSlide_in_range (events : list Event) (s : Session) :
  (1 <= currentSlide (manager (page s))
   <= Z.max 1 (totalSlides (manager (page s))))%Z ->
  (1 <= currentSlide (manager (page (after (run events s))))
   <= Z.max 1 (totalSlides (manager (page s))))%Z.
Proof.
  intro H0. destruct (run_shape events s) as (_ & _ & _ & Hc & _).
  destruct Hc as [Hc|Hc]; [rewrite Hc; exact H0|lia].
Qed.

Lemma session_currentSlide_in_range_witness :
  (1 <= currentSlide
          (manager (page (after (run [ScrollEvent (windowAt 150 100 300);
                                      AnimationFrameEvent; ClickDown]
                                   (sampleSession threeSlides)))))
   <= Z.max 1 3)%Z.
Proof.
  apply (session_currentSlide_in_range
           [ScrollEvent (windowAt 150 100 300); AnimationFrameEvent; ClickDown]
           (sampleSession threeSlides)).
  simpl; lia.
Defined.

(** X18. Starting with no frame callback pending, no listener and no frame
    callback ever throws, whichever of the optional elements (progress
    bar, counter, buttons, header) are missing and whatever events
    arrive. *)
Theorem session_never_throws (events : list Event) (s : Session) :
  animationFrameCallbacks (page s) = [] ->
  uncaught (run events s) = 0%nat.
Proof.
  intro Hq. destruct (run_shape events s) as (_ & _ & _ & _ & _ & Hsound).
  apply Hsound. unfold queueSound. rewrite Hq. intros [].
Qed.

Lemma session_never_throws_witness :
  uncaught (run [ScrollEvent (windowAt 150 100 300); AnimationFrameEvent;
                 KeydownEvent "End"; ClickUp]
              {| page := {| window := windowAt 0 100 300;
                            manager := {| slides := threeSlides;
                                          scrollProgress := None;
                                          currentSlideElement := None;
                                          currentSlide := 1 |};
                            navigation := {| upButton := Some 2%nat;
                                             downButton := None |};
                            animationFrameCallbacks := [] |};
                 headerManager := HeaderManager_new None |}) = 0%nat.
Proof.
  apply session_never_throws. reflexivity.
Defined.

(** X19. Loading the page never throws, whichever optional elements are
    missing: it leaves a session on the loaded window and slide list, with
    no frame callback pending, [currentSlide] between 1 and [max(N, 1)]
    and [lastScroll] at 0, and it issues no scroll request. *)
Theorem load_never_throws (w : Window) (nodes : list HTMLElement)
    (bar counter up down head : option Node) :
  exists (log : list effect) (s : Session),
    loadSession w nodes bar counter up down head = (log, Some s) /\
    window (page s) = w /\
    slides (manager (page s)) = nodes /\
    animationFrameCallbacks (page s) = [] /\
    (1 <= currentSlide (manager (page s)) <= Z.max 1 (Z.of_nat (List.length nodes)))%Z /\
    headerManager s = HeaderManager_new head /\
    Forall noRequest log.
Proof.
  unfold loadSession, DOMContentLoaded, SlideManager_new.
  set (this := {| slides := nodes; scrollProgress := bar;
                  currentSlideElement := counter; currentSlide := 1 |}).
  destruct (updateCurrentSlide_shape w this)
    as (ulog & sm' & Hrun & Hs & _ & _ & Hc & Hlog).
  assert (Hbar : exists es, updateScrollProgress w this = (es, Some tt) /\
                            Forall noRequest es).
  { unfold updateScrollProgress. destruct (scrollProgress this).
    - eexists. split; [reflexivity|]. repeat constructor.
    - exists []. split; [reflexivity|constructor]. }
  destruct Hbar as (es & Hes & Hnr).
  assert (Hinit : exists bs,
             SlideNavigation_init w sm' {| upButton := up; downButton := down |}
             = (bs, Some tt) /\ Forall noRequest bs).
  { unfold SlideNavigation_init, updateButtonStates, setDisabled. simpl.
    destruct up, down; simpl; eexists; (split; [reflexivity|]); repeat constructor. }
  destruct Hinit as (bs & Hbs & Hnb).
  assert (Hnew : (updateScrollProgress w this ;; updateCurrentSlide w this)
                 = (es ++ ulog, Some sm'))
    by (unfold bind; now rewrite Hes, Hrun).
  rewrite Hnew. unfold bind at 2. rewrite Hbs.
  cbv beta iota delta [bind ret].
  eexists _, _. split; [reflexivity|].
  cbn [page window manager animationFrameCallbacks headerManager].
  split; [reflexivity|]. split; [exact Hs|]. split; [reflexivity|].
  split.
  { unfold totalSlides, this in Hc. cbn [slides currentSlide] in Hc. lia. }
  split; [reflexivity|].
  rewrite !app_nil_r. apply Forall_app. split; [apply Forall_app; split|exact Hnb].
  - exact Hnr.
  - eapply Forall_impl; [|exact Hlog]. intros e (el & v & -> & _). reflexivity.
Qed.

(** ** The reveal of a slide *)

Lemma forEachNode_staggered (children : list Node) :
  forall (index : nat) (log : list revealEffect),
    forEachNode_from
      (fun child index log => log ++ [SetTimeout (Z.of_nat index * 100) child])
      index children log
    = log ++ staggered index children.
Proof.
  induction children as [|child rest IH]; intros index log; simpl.
  - now rewrite app_nil_r.
  - rewrite IH, <- app_assoc. reflexivity.
Qed.

Lemma staggered_nth (children : list Node) :
  forall (index i : nat) (child : Node),
    nth_error children i = Some child ->
    nth_error (staggered index children) i
    = Some (SetTimeout (Z.of_nat (index + i) * 100) child).
Proof.
  induction children as [|c rest IH]; intros index i child Hnth.
  - destruct i; discriminate.
  - destruct i as [|i]; simpl in *.
    + injection Hnth as ->. now rewrite Nat.add_0_r.
    + rewrite (IH (S index) i child Hnth).
      replace (S index + i)%nat with (index + S i)%nat by lia. reflexivity.
Qed.

Lemma staggered_length (children : list Node) :
  forall index : nat, List.length (staggered index children) = List.length children.
Proof.
  induction children as [|c rest IH]; intro index; simpl; [reflexivity|].
  now rewrite IH.
Qed.

Lemma revealEntry_log (entry : IntersectionObserverEntry) (log : list revealEffect) :
  revealEntry entry log
  = log ++ (if isIntersecting entry
            then ClassListAdd (target entry) "visible"
                 :: staggered 0 (contentChildren entry)
            else []).
Proof.
  unfold revealEntry. destruct (isIntersecting entry).
  - rewrite forEachNode_staggered, <- app_assoc. reflexivity.
  - now rewrite app_nil_r.
Qed.

(** X20. For an intersecting entry the observer adds the class [visible]
    to the slide and then schedules one timer per content child, in
    document order, the timer of child [i] at [i * 100] milliseconds; an
    entry that is not intersecting causes nothing. *)
Theorem reveal_is_staggered (entry : IntersectionObserverEntry) :
  (isIntersecting entry = false -> observerCallback [entry] = []) /\
  (isIntersecting entry = true ->
   exists timers : list revealEffect,
     observerCallback [entry] = ClassListAdd (target entry) "visible" :: timers /\
     List.length timers = List.length (contentChildren entry) /\
     forall (i : nat) (child : Node),
       nth_error (contentChildren entry) i = Some child ->
       nth_error timers i = Some (SetTimeout (Z.of_nat i * 100) child)).
Proof.
  unfold observerCallback. simpl. rewrite revealEntry_log. simpl.
  split; intro H; rewrite H; [reflexivity|].
  exists (staggered 0 (contentChildren entry)).
  split; [reflexivity|]. split; [apply staggered_length|].
  intros i child Hnth. now rewrite (staggered_nth _ 0 i child Hnth).
Qed.

Lemma reveal_is_staggered_witness :
  exists timers : list revealEffect,
    observerCallback [{| isIntersecting := true; target := 7%nat;
                         contentChildren := [10%nat; 11%nat; 12%nat] |}]
    = ClassListAdd 7%nat "visible" :: timers /\
    nth_error timers 2 = Some (SetTimeout 200 12%nat).
Proof.
  destruct (proj2 (reveal_is_staggered
                     {| isIntersecting := true; target := 7%nat;
                        contentChildren := [10%nat; 11%nat; 12%nat] |}) eq_refl)
    as (timers & Hrun & _ & Hnth).
  exists timers. split; [exact Hrun|]. exact (Hnth 2%nat 12%nat eq_refl).
Defined.

Lemma observerCallback_fold (entries : list IntersectionObserverEntry) :
  forall log : list revealEffect,
    fold_left (fun log entry => revealEntry entry log) entries log
    = log ++ flat_map (fun entry => revealEntry entry []) entries.
Proof.
  induction entries as [|entry entries IH]; intro log; simpl.
  - now rewrite app_nil_r.
  - rewrite IH, (revealEntry_log entry log), (revealEntry_log entry []).
    simpl. now rewrite <- app_assoc.
Qed.

(** X21. The observer keeps no record of what it has revealed: the timers
    it schedules for a batch of entries number the content children of the
    intersecting entries, every occurrence counted, so a slide reported as
    intersecting twice is staggered twice. *)
Theorem reveal_is_not_once (entries : list IntersectionObserverEntry) :
  List.length (filter isTimeout (observerCallback entries))
  = list_sum (map childrenRevealed entries).
Proof.
  unfold observerCallback. rewrite observerCallback_fold. simpl.
  induction entries as [|entry entries IH]; simpl; [reflexivity|].
  rewrite filter_app, length_app, IH. f_equal.
  rewrite (revealEntry_log entry []). simpl. unfold childrenRevealed.
  destruct (isIntersecting entry); simpl; [|reflexivity].
  generalize 0%nat. induction (contentChildren entry) as [|c rest IHc]; intro n; simpl.
  - reflexivity.
  - now rewrite IHc.
Qed.

(** ** The ripple *)

(** With integer coordinates the ripple is centred on the click: a click
    at 50 on a control of width 120 that starts at 10 puts the left edge of
    the ripple at [50 - 10 - 60]. *)
Example ripple_on_integer_coordinates :
  Ripple.onClick
    {| Ripple.node := 9%nat; Ripple.disabled := false;
       Ripple.getBoundingClientRect :=
         {| Ripple.left := 10; Ripple.top := 20;
            Ripple.width := 120; Ripple.height := 40 |} |}
    {| Ripple.clientX := 50; Ripple.clientY := 30 |}
  = [Ripple.CreateSpan; Ripple.SetHeightPx (Fin 120); Ripple.SetWidthPx (Fin 120);
     Ripple.SetLeftPx (Fin (-20)); Ripple.SetTopPx (Fin (-50));
     Ripple.AddRippleClass "ripple"; Ripple.AppendTo 9%nat; Ripple.RemoveAfter 600].
Proof. vm_compute. reflexivity. Qed.



(** ** A burst of notifications and the frame after it *)

Lemma counterWrites_app (l1 l2 : list effect) :
  filter isCounterWrite (l1 ++ l2)
  = filter isCounterWrite l1 ++ filter isCounterWrite l2.
Proof. apply filter_app. Qed.

Lemma updateScrollProgress_no_counter (w : Window) (sm : SlideManager) :
  exists es : list effect,
    updateScrollProgress w sm = (es, Some tt) /\ filter isCounterWrite es = [].
Proof.
  unfold updateScrollProgress. destruct (scrollProgress sm).
  - eexists. split; reflexivity.
  - exists []. split; reflexivity.
Qed.

Lemma updateButtonStates_no_counter (w : Window) (sm : SlideManager)
    (nav : SlideNavigation) :
  filter isCounterWrite (effects (updateButtonStates w sm nav)) = [].
Proof.
  unfold updateButtonStates, setDisabled.
  destruct (upButton nav), (downButton nav); reflexivity.
Qed.

Lemma updateCurrentSlide_counter_only (w : Window) (sm sm' : SlideManager)
    (ulog : list effect) :
  updateCurrentSlide w sm = (ulog, Some sm') ->
  filter isCounterWrite ulog = ulog.
Proof.
  intro Hrun.
  destruct (updateCurrentSlide_shape w sm) as (log & sm2 & Hrun2 & _ & _ & _ & _ & Hlog).
  rewrite Hrun in Hrun2. injection Hrun2 as <- <-. clear Hrun.
  induction Hlog as [|e l (el & v & -> & _) _ IH]; simpl; [reflexivity|].
  now rewrite IH.
Qed.

(** The manager's frame callback, spelled out. *)
Lemma runCallback_manager (p : Page) (log ulog : list effect) (sm' : SlideManager) :
  updateCurrentSlide (window p) (manager p) = (ulog, Some sm') ->
  exists es : list effect,
    runCallback SlideManagerFrame (p, log)
    = ({| window := window p; manager := sm'; navigation := navigation p;
          animationFrameCallbacks := animationFrameCallbacks p |},
       log ++ es ++ ulog) /\
    filter isCounterWrite es = [].
Proof.
  intro Hrun.
  destruct (updateScrollProgress_no_counter (window p) (manager p)) as (es & Hes & Hf).
  exists es. split; [|exact Hf].
  unfold runCallback, bind. now rewrite Hes, Hrun.
Qed.

(** Once the manager is settled on the window, further callbacks write
    nothing to the counter and leave the manager alone. *)
Lemma settled_callbacks (callbacks : list FrameRequestCallback) :
  forall (p : Page) (log : list effect),
    updateCurrentSlide (window p) (manager p) = ([], Some (manager p)) ->
    manager (fst (fold_left (fun st cb => runCallback cb st) callbacks (p, log)))
    = manager p /\
    filter isCounterWrite
      (snd (fold_left (fun st cb => runCallback cb st) callbacks (p, log)))
    = filter isCounterWrite log.
Proof.
  induction callbacks as [|cb callbacks IH]; intros p log Hset; [now split|].
  cbn [fold_left]. destruct cb.
  - destruct (runCallback_manager p log [] (manager p) Hset) as (es & Hrun & Hf).
    rewrite Hrun.
    match goal with
    | |- context [fold_left _ callbacks (?p1, ?log1)] =>
        destruct (IH p1 log1 Hset) as [I1 I2]
    end.
    rewrite I1, I2, !counterWrites_app, Hf. simpl. now rewrite !app_nil_r.
  - change (runCallback SlideNavigationFrame (p, log))
      with (p, log ++ effects (updateButtonStates (window p) (manager p)
                                 (navigation p))).
    destruct (IH p (log ++ effects (updateButtonStates (window p) (manager p)
                                      (navigation p))) Hset) as [I1 I2].
    rewrite I1, I2, counterWrites_app, updateButtonStates_no_counter.
    now rewrite app_nil_r.
Qed.

Lemma first_manager_callback (callbacks : list FrameRequestCallback) :
  forall (p : Page) (log ulog : list effect) (sm1 : SlideManager),
    stacked (slides (manager p)) ->
    updateCurrentSlide (window p) (manager p) = (ulog, Some sm1) ->
    In SlideManagerFrame callbacks ->
    manager (fst (fold_left (fun st cb => runCallback cb st) callbacks (p, log))) = sm1 /\
    filter isCounterWrite
      (snd (fold_left (fun st cb => runCallback cb st) callbacks (p, log)))
    = filter isCounterWrite log ++ ulog.
Proof.
  induction callbacks as [|cb callbacks IH]; intros p log ulog sm1 Hst Hrun Hin;
    [contradiction|].
  cbn [fold_left]. destruct cb.
  - destruct (runCallback_manager p log ulog sm1 Hrun) as (es & Hcb & Hf).
    rewrite Hcb.
    pose proof (updateCurrentSlide_settles (window p) (manager p) sm1 ulog Hst Hrun)
      as Hset.
    match goal with
    | |- context [fold_left _ callbacks (?p1, ?log1)] =>
        destruct (settled_callbacks callbacks p1 log1 Hset) as [I1 I2]
    end.
    rewrite I1, I2, !counterWrites_app, Hf.
    rewrite (updateCurrentSlide_counter_only _ _ _ _ Hrun). now split.
  - change (runCallback SlideNavigationFrame (p, log))
      with (p, log ++ effects (updateButtonStates (window p) (manager p)
                                 (navigation p))).
    destruct (IH p (log ++ effects (updateButtonStates (window p) (manager p)
                                      (navigation p))) ulog sm1 Hst Hrun)
      as [I1 I2].
    { destruct Hin as [Hin|Hin]; [discriminate|exact Hin]. }
    rewrite I1, I2, counterWrites_app, updateButtonStates_no_counter.
    now rewrite app_nil_r.
Qed.

Lemma scrollBurst_window (ws : list Window) (w : Window) (p : Page) :
  window (scrollBurst (ws ++ [w]) p) = w.
Proof.
  unfold scrollBurst. rewrite fold_left_app. reflexivity.
Qed.

(** X23. On a stacked layout, the frame after a burst of scroll
    notifications leaves the manager exactly as a single
    [updateCurrentSlide] on the last window would, and its counter writes
    are those of that single update (at most one): the repeated callbacks
    repeat the width and button writes but not the counter write. *)
Theorem burst_settles_like_one_update (p : Page) (ws : list Window) (w : Window)
    (ulog : list effect) (sm1 : SlideManager) :
  stacked (slides (manager p)) ->
  animationFrameCallbacks p = [] ->
  updateCurrentSlide w (manager p) = (ulog, Some sm1) ->
  manager (fst (animationFrame (scrollBurst (ws ++ [w]) p))) = sm1 /\
  filter isCounterWrite (snd (animationFrame (scrollBurst (ws ++ [w]) p))) = ulog /\
  (List.length ulog <= 1)%nat.
Proof.
  intros Hst Hq Hrun.
  destruct (scrollBurst_queue (ws ++ [w]) p) as (Hm & Hn & Hcb).
  pose proof (scrollBurst_window ws w p) as Hw.
  unfold animationFrame. rewrite Hcb, Hq, Hw, Hm. simpl app.
  match goal with
  | |- context [fold_left _ ?cbs (?p0, [])] =>
      destruct (first_manager_callback cbs p0 [] ulog sm1) as [I1 I2]
  end.
  - exact Hst.
  - exact Hrun.
  - rewrite map_app, concat_app. apply in_or_app. right. simpl. now left.
  - split; [exact I1|]. split; [exact I2|].
    destruct (match_or_none (scrollPosition w) (slides (manager p)))
      as [Hnone | (before & slide & after & Hsplit & Hin & Hafter)].
    + unfold updateCurrentSlide, forEach in Hrun.
      rewrite update_no_match in Hrun by assumption.
      injection Hrun as <- _. simpl. lia.
    + assert (Hk : nth_error (slides (manager p)) (List.length before) = Some slide).
      { rewrite Hsplit, nth_error_app2 by lia. now rewrite Nat.sub_diag. }
      assert (Hr : focusInRange w slide) by now apply focusInRange_iff.
      rewrite (updateCurrentSlide_on_stacked w (manager p) _ slide Hst Hk Hr) in Hrun.
      destruct (_ =? _)%Z; injection Hrun as <- _; [simpl; lia|].
      destruct (currentSlideElement (manager p)); simpl; lia.
Qed.

Lemma burst_settles_like_one_update_witness :
  filter isCounterWrite
    (snd (animationFrame
            (scrollBurst ([windowAt 40 100 300; windowAt 90 100 300]
                            ++ [windowAt 150 100 300])
               (samplePage threeSlides))))
  = [SetTextContent 1%nat 3].
Proof.
  refine (proj1 (proj2 (burst_settles_like_one_update (samplePage threeSlides)
                          [windowAt 40 100 300; windowAt 90 100 300]
                          (windowAt 150 100 300) [SetTextContent 1%nat 3]
                          (set_currentSlide (sampleManager threeSlides) 3) _ _ _))).
  - simpl; lia.
  - reflexivity.
  - reflexivity.
Defined.
